(** * MAMSI MB-PLS: latent-variable estimation and MB-VIP permutation test

    A shallow embedding of [src/mamsi/mamsi_pls.py] (class [MamsiPls]):
    the curve-shape analysis of [estimate_lv] (bend and plateau), the
    MB-VIP scorer [mb_vip] and the permutation test [mb_vip_permtest].

    Modelling conventions.
    - Python floats are modelled as exact rationals ([Q]); rounding is not
      modelled.  The statements about the curve compare differences and
      quotients with the thresholds as the code does; none rests on an
      algebraic identity that rounding would break.  The values numpy
      produces on a division by zero (infinities, NaN) are kept, see
      [npfloat].
    - Python objects that are shared between the caller and the method
      (predictor blocks, the response array) live in a store, see [world];
      arrays created inside a method and never handed out are values.
    - The MB-PLS engine (class [MBPLS] of the mbpls package), scikit-learn's
      fold splitter and scoring functions and numpy's random generator are
      external: they are variables of the section [Mamsi]. *)

From Stdlib Require Import List String ZArith QArith Qabs Lia Bool.
From stdpp Require Import gmap strings list fin_maps.

Local Open Scope Q_scope.

(** ** Exceptions and results *)

Inductive exn : Set :=
  | ValueError        (* invalid parameter, empty reduction, shape mismatch *)
  | IndexError        (* subscript of an empty list *)
  | TypeError         (* arithmetic on None *)
  | NotFittedError    (* check_is_fitted failed *)
  | StatisticsError   (* statistics.mean of no data *)
  | EngineError.      (* failure inside the external MB-PLS engine or scikit-learn *)

Inductive result (A : Type) : Type :=
  | Ok (a : A)
  | Raise (e : exn).
Arguments Ok {A} a.
Arguments Raise {A} e.

(** ** Numbers *)

(** [a < b] and [a > b] on floats. *)
Definition Qltb (a b : Q) : bool := negb (Qle_bool b a).
Definition Qgtb (a b : Q) : bool := negb (Qle_bool a b).

(** What a numpy float64 cell can hold: a number, an infinity or NaN. *)
Inductive npfloat : Set :=
  | Finite (q : Q)
  | PosInf
  | NegInf
  | NaN.

(** [d / s] for an array cell [d] and a scalar [s]: numpy does not raise on
    a zero divisor, it yields an infinity with the sign of [d], or NaN. *)
Definition np_true_divide (d s : Q) : npfloat :=
  if Qeq_bool s 0 then
    if Qltb 0 d then PosInf else if Qltb d 0 then NegInf else NaN
  else Finite (d / s).

(** [a < t] for a cell [a] and a finite scalar [t]. *)
Definition np_less (a : npfloat) (t : Q) : bool :=
  match a with
  | Finite q => Qltb q t
  | NegInf => true
  | PosInf | NaN => false
  end.

(** [a >= b] on cells; every comparison with NaN is false. *)
Definition np_greater_equal (a b : npfloat) : bool :=
  match a, b with
  | NaN, _ | _, NaN => false
  | PosInf, _ => true
  | _, NegInf => true
  | NegInf, _ => false
  | _, PosInf => false
  | Finite x, Finite y => Qle_bool y x
  end.

(** [np.diff]: [out[i] = a[i+1] - a[i]]. *)
Fixpoint np_diff (a : list Q) : list Q :=
  match a with
  | x :: (y :: _) as t => (y - x) :: np_diff t
  | _ => []
  end.

(** [np.where(mask)[0]]: the positions of the true cells, ascending. *)
Fixpoint np_where_from (i : nat) (mask : list bool) : list nat :=
  match mask with
  | [] => []
  | b :: m => if b then i :: np_where_from (S i) m else np_where_from (S i) m
  end.
Definition np_where (mask : list bool) : list nat := np_where_from 0 mask.

(** [np.min]: raises ValueError on an empty array. *)
Definition np_min (a : list nat) : result nat :=
  match a with
  | [] => Raise ValueError
  | x :: t => Ok (fold_left Nat.min t x)
  end.

(** [np.sum] of a vector. *)
Definition np_sum (a : list Q) : Q := fold_left Qplus a 0.

(** ** Curve-shape analysis *)

(** [MamsiPls._find_plateau].  The outer loop runs over
    [range(1, n - consecutive_elements + 1)], which has
    [n - consecutive_elements] elements (none when that is negative, as for
    the truncated subtraction); the inner loop over
    [range(consecutive_elements - 1)].  Every subscript [i + j] and
    [i + j - 1] it uses is within the list; [(None, None)] is [None]. *)
Fixpoint plateau_inner (scores : list Q) (range_threshold : Q) (i : nat)
    (js : list nat) : bool :=
  match js with
  | [] => true
  | j :: js' =>
      let diff := Qabs (nth (i + j) scores 0 - nth (i + j - 1) scores 0) in
      if Qgtb diff range_threshold then false
      else plateau_inner scores range_threshold i js'
  end.

Fixpoint plateau_outer (scores : list Q) (range_threshold : Q)
    (consecutive_elements : nat) (range_ : list nat) : option (nat * nat) :=
  match range_ with
  | [] => None
  | i :: range' =>
      if plateau_inner scores range_threshold i (seq 0 (consecutive_elements - 1))
      then Some (i, (i + consecutive_elements - 1)%nat)
      else plateau_outer scores range_threshold consecutive_elements range'
  end.

Definition _find_plateau (scores : list Q) (range_threshold : Q)
    (consecutive_elements : nat) : option (nat * nat) :=
  let n := length scores in
  plateau_outer scores range_threshold consecutive_elements
    (seq 1 (n - consecutive_elements)).

(** The bend of [estimate_lv]:
    [np.min(np.where(np.diff(data) / data[0] < increase_threshold)[0]) + 1]. *)
Definition bend_mask (data : list Q) (d0 increase_threshold : Q) : list bool :=
  map (fun d => np_less (np_true_divide d d0) increase_threshold) (np_diff data).

Definition bend_of (data : list Q) (increase_threshold : Q) : result nat :=
  match data with
  | [] => Raise IndexError
  | d0 :: _ =>
      match np_min (np_where (bend_mask data d0 increase_threshold)) with
      | Ok m => Ok (m + 1)%nat
      | Raise e => Raise e
      end
  end.

(** *** The curve-shape analysis as the specification words it *)

(** The window of [c] scores that starts at the component count [s]
    (counts are 1-based: count [s] is [scores[s-1]]) is a plateau. *)
Definition is_plateau (scores : list Q) (thr : Q) (c s : nat) : Prop :=
  (1 <= s)%nat /\ (s + c - 1 <= length scores)%nat /\
  forall k, (S k < c)%nat ->
    Qabs (nth (s + k) scores 0 - nth (s + k - 1) scores 0) <= thr.

Definition is_plateaub (scores : list Q) (thr : Q) (c s : nat) : bool :=
  (1 <=? s)%nat && (s + c - 1 <=? length scores)%nat &&
  forallb (fun k => Qle_bool (Qabs (nth (s + k) scores 0 - nth (s + k - 1) scores 0)) thr)
          (seq 0 (c - 1)).

(** The first plateau window, scanning the counts [1 .. n] upward. *)
Definition spec_find_plateau (scores : list Q) (thr : Q) (c : nat) : option (nat * nat) :=
  match List.find (is_plateaub scores thr c) (seq 1 (length scores)) with
  | Some s => Some (s, (s + c - 1)%nat)
  | None => None
  end.

(** The normalized difference number [k] (0-based) is below the threshold. *)
Definition bend_below (scores : list Q) (thr : Q) (k : nat) : bool :=
  np_less (np_true_divide (nth (S k) scores 0 - nth k scores 0) (nth 0 scores 0)) thr.

(** ** numpy on matrices

    A matrix is the list of its rows.  The arrays the engine exposes are
    rectangular, with one column per component, and there is at least one
    block: the shape errors numpy raises on other inputs of [np.vstack],
    [np.sum] and [*] are not modelled.  Those of [np.stack] and of the
    comparison in the permutation test are. *)
Abbreviation matrix := (list (list Q)).

(** [np.vstack]: the rows of the blocks, in block order. *)
Definition np_vstack (blocks : list matrix) : matrix := concat blocks.

(** [m ** 2], cell by cell. *)
Definition np_square (m : matrix) : matrix := map (map (fun w => w ^ 2)) m.

(** [np.sum(m, axis=0)]: one sum per column. *)
Definition np_sum_axis0 (m : matrix) : list Q :=
  match m with
  | [] => []
  | r :: rs => fold_left (zip_with Qplus) rs r
  end.

(** [np.sum(m, axis=1)]: one sum per row. *)
Definition np_sum_axis1 (m : matrix) : list Q := map np_sum m.

(** [v * m] for a vector [v] with one cell per column of [m]. *)
Definition np_multiply_rows (v : list Q) (m : matrix) : matrix :=
  map (zip_with Qmult v) m.

(** [df.iloc[indices]] and [a[indices]]: the selected rows, as a new object. *)
Definition iloc (m : matrix) (indices : list nat) : matrix :=
  map (fun i => nth i m []) indices.
Definition take_indices (a : list Q) (indices : list nat) : list Q :=
  map (fun i => nth i a 0) indices.

(** [np.where(y > 0.5, 1, 0)]. *)
Definition np_where_gt_half (y : list Q) : list Q :=
  map (fun v => if Qgtb v 0.5 then 1 else 0) y.

(** [statistics.mean]. *)
Definition statistics_mean (data : list Q) : result Q :=
  match data with
  | [] => Raise StatisticsError
  | _ => Ok (np_sum data / inject_Z (Z.of_nat (length data)))
  end.

(** [np.stack(arrays, axis=1)] of vectors: cell [(f, t)] of the result is
    cell [f] of the array number [t].  It raises ValueError when there is no
    array or when two arrays differ in length. *)
Definition np_stack_axis1 {A} (arrays : list (list A)) : result (list (list A)) :=
  match arrays with
  | [] => Raise ValueError
  | a0 :: rest =>
      if forallb (fun a => length a =? length a0)%nat rest
      then Ok (map (fun f => omap (fun a => a !! f) arrays) (seq 0 (length a0)))
      else Raise ValueError
  end.

(** [vip_null >= vip_obs] for a features-by-trials matrix and a column of
    observed scores, with numpy's broadcasting of a dimension of size 1. *)
Definition np_greater_equal_column (vip_null : list (list npfloat))
    (vip_obs : list npfloat) : result (list (list bool)) :=
  if (length vip_null =? length vip_obs)%nat then
    Ok (zip_with (fun row o => map (fun v => np_greater_equal v o) row) vip_null vip_obs)
  else
    match vip_obs, vip_null with
    | [o], _ => Ok (map (map (fun v => np_greater_equal v o)) vip_null)
    | _, [row] => Ok (map (fun o => map (fun v => np_greater_equal v o) row) vip_obs)
    | _, _ => Raise ValueError
    end.

(** [np.sum(mask, axis=1)] of a boolean matrix. *)
Definition np_count_axis1 (mask : list (list bool)) : list nat :=
  map (fun row => length (List.filter (fun b : bool => b) row)) mask.

(** Lines 401 to 405 of [mb_vip_permtest]: the p-values from the observed
    scores and the list of the null models' scores. *)
Definition empirical_p_values (_vip : list npfloat) (_vip_null : list (list npfloat))
    (n_permutations : nat) : result (list Q * list (list npfloat)) :=
  match np_stack_axis1 _vip_null with
  | Raise e => Raise e
  | Ok vip_null =>
      match np_greater_equal_column vip_null _vip with
      | Raise e => Raise e
      | Ok mask =>
          let vip_greater := np_count_axis1 mask in
          Ok (map (fun c => inject_Z (Z.of_nat c) / inject_Z (Z.of_nat n_permutations))
                  vip_greater, vip_null)
      end
  end.

(** ** The model object and the store *)

(** The attributes [MBPLS.fit] leaves on the object: per-block weights and
    loadings, super-scores and y-loadings.  [beta_] exists exactly when
    they do, so [check_is_fitted(self, 'beta_')] asks for the record. *)
Record Fitted : Type := {
  W_  : list matrix;
  P_  : list matrix;
  Ts_ : matrix;
  V_  : matrix
}.

Record MamsiPls : Type := {
  n_components : nat;
  copy : bool;                 (* constructor flag: deflate on a copy of the input *)
  attrs : option Fitted
}.

Definition loc := nat.

(** The predictors argument: a list of blocks or a single block. *)
Inductive py_x : Type :=
  | XList (blocks : list loc)
  | XFrame (block : loc).

(** The blocks the engine reads from [x] (it wraps a single block itself). *)
Definition blocks_of (x : py_x) : list loc :=
  match x with
  | XList ls => ls
  | XFrame l => [l]
  end.

Inductive message : Type :=
  | MsgBend (metric : string) (increase : Q) (bend : nat)
  | MsgPlateau (metric : string) (start : nat)
  | MsgNoPlateau             (* "No plateau detected, consider exploring more latent variables." *)
  | MsgRefitted (n : nat).

Inductive drawing : Type :=
  | DrawCurves
  | DrawAxVLine (x : nat) (label : string)
  | DrawVip.

(** One call of the engine's [fit]: the component count, the references
    it was given for the blocks (none for arrays made on the spot), the
    blocks and the response it read. *)
Record fit_call : Type := {
  call_n : nat;
  call_refs : option (list loc);
  call_X : list matrix;
  call_y : list Q
}.

Record world : Type := {
  self_ : MamsiPls;
  frames : gmap loc (list (list Q));     (* the predictor blocks in memory *)
  arrays : gmap loc (list Q);            (* the response arrays in memory *)
  rng : nat;                             (* state of numpy's global generator *)
  stdout : list message;
  figure : list drawing;
  fit_log : list fit_call                (* history of engine fits, oldest first *)
}.

(** ** The monad of methods: state and exceptions *)

Definition M (A : Type) : Type := world -> result A * world.

#[global] Instance M_ret : MRet M := fun A a w => (Ok a, w).
#[global] Instance M_bind : MBind M := fun A B f m w =>
  match m w with
  | (Ok a, w') => f a w'
  | (Raise e, w') => (Raise e, w')
  end.

Definition raise {A} (e : exn) : M A := fun w => (Raise e, w).
Definition lift {A} (r : result A) : M A := fun w => (r, w).
Definition get_world : M world := fun w => (Ok w, w).

(** [try: body except TypeError: handler]. *)
Definition try_except_TypeError {A} (body handler : M A) : M A := fun w =>
  match body w with
  | (Raise TypeError, w') => handler w'
  | r => r
  end.

(** [for a in xs: s = body(a, s)], the locals of the loop being [s]. *)
Fixpoint for_in {A S} (xs : list A) (body : A -> S -> M S) (s : S) : M S :=
  match xs with
  | [] => mret s
  | a :: xs' => s' ← body a s; for_in xs' body s'
  end.

(** Field updates of the world. *)
Definition with_self (o : MamsiPls) (w : world) : world :=
  {| self_ := o; frames := frames w; arrays := arrays w; rng := rng w;
     stdout := stdout w; figure := figure w; fit_log := fit_log w |}.
Definition with_frames (h : gmap loc (list (list Q))) (w : world) : world :=
  {| self_ := self_ w; frames := h; arrays := arrays w; rng := rng w;
     stdout := stdout w; figure := figure w; fit_log := fit_log w |}.
Definition with_arrays (h : gmap loc (list Q)) (w : world) : world :=
  {| self_ := self_ w; frames := frames w; arrays := h; rng := rng w;
     stdout := stdout w; figure := figure w; fit_log := fit_log w |}.
Definition with_rng (g : nat) (w : world) : world :=
  {| self_ := self_ w; frames := frames w; arrays := arrays w; rng := g;
     stdout := stdout w; figure := figure w; fit_log := fit_log w |}.
Definition with_stdout (out : list message) (w : world) : world :=
  {| self_ := self_ w; frames := frames w; arrays := arrays w; rng := rng w;
     stdout := out; figure := figure w; fit_log := fit_log w |}.
Definition with_figure (fig : list drawing) (w : world) : world :=
  {| self_ := self_ w; frames := frames w; arrays := arrays w; rng := rng w;
     stdout := stdout w; figure := fig; fit_log := fit_log w |}.
Definition with_fit_log (log : list fit_call) (w : world) : world :=
  {| self_ := self_ w; frames := frames w; arrays := arrays w; rng := rng w;
     stdout := stdout w; figure := figure w; fit_log := log |}.

Definition modify (f : world -> world) : M unit := fun w => (Ok tt, f w).

Definition set_self (o : MamsiPls) : M unit := modify (with_self o).
Definition set_frames (h : gmap loc (list (list Q))) : M unit := modify (with_frames h).
Definition set_arrays (h : gmap loc (list Q)) : M unit := modify (with_arrays h).
Definition set_rng (g : nat) : M unit := modify (with_rng g).
Definition print (m : message) : M unit :=
  modify (fun w => with_stdout (stdout w ++ [m]) w).
Definition draw (d : drawing) : M unit :=
  modify (fun w => with_figure (figure w ++ [d]) w).
Definition log_fit (c : fit_call) : M unit :=
  modify (fun w => with_fit_log (fit_log w ++ [c]) w).

(** [self.n_components = n]. *)
Definition set_n_components (n : nat) : M unit :=
  w ← get_world;
  set_self {| n_components := n; copy := copy (self_ w); attrs := attrs (self_ w) |}.

(** Reading a block or an array through a reference. *)
Definition read_frame (l : loc) : M (list (list Q)) :=
  w ← get_world; mret (default [] (frames w !! l)).
Definition read_array (l : loc) : M (list Q) :=
  w ← get_world; mret (default [] (arrays w !! l)).
Definition read_frames (ls : list loc) : M (list (list (list Q))) :=
  w ← get_world; mret (map (fun l => default [] (frames w !! l)) ls).

(** A new block object holding [m]. *)
Definition new_frame (m : list (list Q)) : M loc :=
  w ← get_world;
  let l := fresh (dom (frames w)) in
  set_frames (<[l := m]> (frames w));; mret l.

(** Storing through references, left to right. *)
Fixpoint write_frames (ls : list loc) (ms : list (list (list Q))) : M unit :=
  match ls, ms with
  | l :: ls', m :: ms' =>
      w ← get_world; set_frames (<[l := m]> (frames w));; write_frames ls' ms'
  | _, _ => mret tt
  end.

(** [plt.axvline(x, ...)]: matplotlib compares [x] with the axis limits,
    which is a TypeError for None. *)
Definition plt_axvline (x : option nat) (label : string) : M unit :=
  match x with
  | None => raise TypeError
  | Some v => draw (DrawAxVLine v label)
  end.

(** [check_array(y, ensure_2d=False)]: at least one sample is required. *)
Definition check_array (y : list Q) : result (list Q) :=
  match y with
  | [] => Raise ValueError
  | _ => Ok y
  end.

(** [KFold(n_splits=no_fold)]: at least two splits are required. *)
Definition KFold_init (no_fold : nat) : result nat :=
  if (no_fold <=? 1)%nat then Raise ValueError else Ok no_fold.

(** [metric in allowed_metrics]. *)
Definition str_in (s : string) (l : list string) : bool :=
  existsb (String.eqb s) l.

(** The table [perf_scores]: named columns, one row per component count. *)
Abbreviation perf_table := (list (string * list Q)).

(** The score lists [estimate_lv] appends to ([r2], [q2], [r2_auc], ...,
    and [lv_r2], [lv_q2], ... inside one component count), by name. *)
Abbreviation score_lists := (gmap string (list Q)).

Definition scores_of (name : string) (env : gmap string (list Q)) : list Q :=
  default [] (env !! name).

(** [name.append(v)]. *)
Definition append_score (name : string) (v : Q) (env : gmap string (list Q))
    : gmap string (list Q) :=
  <[name := scores_of name env ++ [v]]> env.

#[global] Instance result_ret : MRet result := fun A a => Ok a.
#[global] Instance result_bind : MBind result := fun A B f r =>
  match r with
  | Ok a => f a
  | Raise e => Raise e
  end.

(** [dst.append(statistics.mean(src))]. *)
Definition append_mean (dst src : string) (lv : gmap string (list Q))
    (env : gmap string (list Q)) : result (gmap string (list Q)) :=
  m ← statistics_mean (scores_of src lv); mret (append_score dst m env).

(** [range(1, n + 1)] as a column of numbers. *)
Definition component_column (n : nat) : list Q :=
  map (fun i => inject_Z (Z.of_nat i)) (seq 1 n).

(** ** A small stand-in for the external collaborators

    Used to run the methods on concrete inputs.  The weight of a feature
    is its inner product with the response, repeated for every component;
    super-scores and y-loadings are all ones; deflation leaves zeros in the
    inputs; a prediction is the component count; a score of predictions
    [n, n, ...] is [1 - 1/(n+1)]; folds are contiguous as in scikit-learn;
    the generator reverses the array. *)
Module Toy.

Definition column (m : matrix) (j : nat) : list Q := map (fun row => nth j row 0) m.

Definition inner (a b : list Q) : Q := np_sum (zip_with Qmult a b).

Definition block_weights (n : nat) (y : list Q) (m : matrix) : matrix :=
  map (fun j => repeat (Qred (inner (column m j) y)) n) (seq 0 (length (hd [] m))).

Definition zeros (m : matrix) : matrix := map (map (fun _ => 0)) m.

Definition fit (n : nat) (X : list matrix) (y : list Q)
    : option (Fitted * (list matrix * list Q)) :=
  if (n =? 0)%nat then None
  else
    let W := map (block_weights n y) X in
    Some ({| W_ := W; P_ := W; Ts_ := map (fun _ => repeat 1 n) y; V_ := [repeat 1 n] |},
        (map zeros X, map (fun _ => 0) y)).

Definition predict (f : Fitted) (X : list matrix) : result (list Q) :=
  Ok (map (fun _ => inject_Z (Z.of_nat (length (hd [] (V_ f))))) (hd [] X)).

Definition score (y_true y_predicted : list Q) : result Q :=
  Ok (Qred (1 - 1 / (1 + hd 0 y_predicted))).

(** An r2 below zero that falls by 0.008 with each component, from -0.1:
    a model that generalises worse the more components it has. *)
Definition falling_score (y_true y_predicted : list Q) : result Q :=
  Ok (Qred (- (92 # 1000) - (8 # 1000) * hd 0 y_predicted)).

Fixpoint fold_starts (start : nat) (sizes : list nat) : list (nat * nat) :=
  match sizes with
  | [] => []
  | sz :: rest => (start, sz) :: fold_starts (start + sz) rest
  end.

Definition KFold_split (n_splits n_samples : nat) : result (list (list nat * list nat)) :=
  if (n_samples <? n_splits)%nat then Raise ValueError
  else
    let sizes := map (fun j => (n_samples / n_splits +
                                (if j <? n_samples mod n_splits then 1 else 0))%nat)
                     (seq 0 n_splits) in
    Ok (map (fun '(start, sz) =>
               (seq 0 start ++ seq (start + sz) (n_samples - (start + sz)), seq start sz))
            (fold_starts 0 sizes)).

Definition permutation (g : nat) (a : list Q) : list Q * nat := (rev a, S g).

Definition sqrt (a : npfloat) : npfloat := a.

(** One block of four observations and two features, and a binary
    response, both owned by the caller. *)
Definition block : matrix := [[1; 0]; [0; 1]; [1; 1]; [0; 0]].
Definition response : list Q := [1; 0; 1; 0].

(** A model that was never fitted. *)
Definition w_new : world :=
  {| self_ := {| n_components := 2; copy := true; attrs := None |};
     frames := {[ 0%nat := block ]}; arrays := {[ 0%nat := response ]};
     rng := 0; stdout := []; figure := []; fit_log := [] |}.

(** The attributes of the fit of two components on the block and the
    response. *)
Definition observed : Fitted :=
  {| W_ := [[[2; 2]; [1; 1]]]; P_ := [[[2; 2]; [1; 1]]];
     Ts_ := [[1; 1]; [1; 1]; [1; 1]; [1; 1]]; V_ := [[1; 1]] |}.

(** The fitted model, deflating on a copy or in place. *)
Definition w_fitted (copy_flag : bool) : world :=
  {| self_ := {| n_components := 2; copy := copy_flag; attrs := Some observed |};
     frames := {[ 0%nat := block ]}; arrays := {[ 0%nat := response ]};
     rng := 0; stdout := []; figure := [];
     fit_log := [{| call_n := 2; call_refs := Some [0%nat]; call_X := [block];
                    call_y := response |}] |}.

(** A fitted model whose super-scores are all zero: every MB-VIP score
    is 0/0. *)
Definition degenerate : Fitted :=
  {| W_ := [[[2; 2]; [1; 1]]]; P_ := [[[2; 2]; [1; 1]]];
     Ts_ := [[0; 0]; [0; 0]; [0; 0]; [0; 0]]; V_ := [[1; 1]] |}.

Definition w_degenerate : world :=
  {| self_ := {| n_components := 2; copy := true; attrs := Some degenerate |};
     frames := {[ 0%nat := block ]}; arrays := {[ 0%nat := response ]};
     rng := 0; stdout := []; figure := []; fit_log := [] |}.

End Toy.

Section Mamsi.

(** *** External collaborators *)

(** [MBPLS.fit] at a component count, on the values of the blocks and of
    the response: the fitted attributes, and what the deflation leaves in
    the input buffers (it is written there when [copy] is false).  It
    answers nothing when the engine fails; the exception of the engine is
    [EngineError] here, in particular it is not a TypeError. *)
Variable engine_fit :
  nat -> list matrix -> list Q -> option (Fitted * (list matrix * list Q)).
(** [MBPLS.predict]. *)
Variable engine_predict : Fitted -> list matrix -> result (list Q).
(** [KFold.split]: the (train, test) index lists for a fold count and a
    sample count. *)
Variable KFold_split : nat -> nat -> result (list (list nat * list nat)).
(** scikit-learn's scores, of true and predicted values. *)
Variables r2_score roc_auc_score precision_score recall_score f1_score
  accuracy_score : list Q -> list Q -> result Q.
(** [np.random.permutation]: a shuffled copy and the next generator state. *)
Variable np_random_permutation : nat -> list Q -> list Q * nat.
(** [np.sqrt] on a cell. *)
Variable np_sqrt : npfloat -> npfloat.

(** *** Model adapter *)

(** The engine's [fit] on values: it reads [self.n_components], replaces
    the learned attributes and answers what it leaves in its inputs. *)
Definition fit_values (refs : option (list loc)) (X : list matrix) (y : list Q)
    : M (list matrix * list Q) :=
  w ← get_world;
  let n := n_components (self_ w) in
  '(f, residue) ← match engine_fit n X y with
                  | Some r => mret r
                  | None => raise EngineError
                  end;
  log_fit {| call_n := n; call_refs := refs; call_X := X; call_y := y |};;
  set_self {| n_components := n; copy := copy (self_ w); attrs := Some f |};;
  mret residue.

(** [self.fit(X, y)] on arrays made on the spot, which nobody else holds. *)
Definition self_fit_fresh (X : list matrix) (y : list Q) : M unit :=
  fit_values None X y;; mret tt.

(** [self.fit(x, y_new)] on the caller's blocks and a response made on the
    spot: without [copy] the deflated blocks end up in the caller's objects. *)
Definition self_fit_blocks (x : py_x) (y : list Q) : M unit :=
  X ← read_frames (blocks_of x);
  residue ← fit_values (Some (blocks_of x)) X y;
  w ← get_world;
  if copy (self_ w) then mret tt
  else write_frames (blocks_of x) (fst residue).

(** [self.fit(x, y)] on the caller's blocks and the caller's response. *)
Definition self_fit (x : py_x) (y : loc) : M unit :=
  X ← read_frames (blocks_of x);
  yv ← read_array y;
  residue ← fit_values (Some (blocks_of x)) X yv;
  w ← get_world;
  if copy (self_ w) then mret tt
  else
    write_frames (blocks_of x) (fst residue);;
    w' ← get_world;
    set_arrays (<[y := snd residue]> (arrays w')).

(** [self.predict(X)]. *)
Definition self_predict (X : list matrix) : M (list Q) :=
  w ← get_world;
  match attrs (self_ w) with
  | None => raise NotFittedError
  | Some f => lift (engine_predict f X)
  end.

(** *** MB-VIP *)

(** Lines 332 to 339 of [mb_vip], on the fitted attributes. *)
Definition vip_of (f : Fitted) : list npfloat :=
  let weights := np_vstack (W_ f) in
  let sum_squares :=
    zip_with Qmult (np_sum_axis0 (np_square (Ts_ f))) (np_sum_axis0 (np_square (V_ f))) in
  let p := length (np_vstack (P_ f)) in
  map (fun s => np_sqrt (np_true_divide (inject_Z (Z.of_nat p) * s) (np_sum sum_squares)))
      (np_sum_axis1 (np_multiply_rows sum_squares (np_square weights))).

Definition mb_vip (plot : bool) : M (list npfloat) :=
  w ← get_world;
  match attrs (self_ w) with
  | None => raise NotFittedError
  | Some f =>
      let vip_scores := vip_of f in
      (if plot then draw DrawVip else mret tt);;
      mret vip_scores
  end.

(** *** Permutation test *)

(** [copy.deepcopy(x)]: new objects for all the blocks. *)
Definition deepcopy (x : py_x) : M py_x :=
  match x with
  | XList ls =>
      ls' ← for_in ls (fun l acc => m ← read_frame l; l' ← new_frame m; mret (acc ++ [l'])) [];
      mret (XList ls')
  | XFrame l => m ← read_frame l; l' ← new_frame m; mret (XFrame l')
  end.

(** [isinstance(v, list) and not isinstance(v[0], list)], else [v = [v]]:
    the subscript fails on an empty list. *)
Definition as_block_list (v : py_x) : M (list loc) :=
  match v with
  | XList [] => raise IndexError
  | XList ls => mret ls
  | XFrame l => mret [l]
  end.

(** The body of the permutation loop; the local [_vip_null] is threaded. *)
Definition permtest_trial (x : py_x) (_y : list Q) (_vip_null : list (list npfloat))
    : M (list (list npfloat)) :=
  w ← get_world;
  let '(y_perm, g) := np_random_permutation (rng w) _y in
  set_rng g;;
  self_fit_blocks x y_perm;;
  v ← mb_vip false;
  mret (_vip_null ++ [v]).

Definition mb_vip_permtest (x : py_x) (y : loc) (n_permutations : nat)
    (return_scores : bool) : M (list Q * option (list (list npfloat))) :=
  w ← get_world;
  match attrs (self_ w) with
  | None => raise NotFittedError
  | Some _ =>
      _x ← deepcopy x;
      _x ← as_block_list _x;
      _y ← read_array y;
      _y ← lift (check_array _y);
      _vip ← mb_vip false;
      _vip_null ← for_in (seq 0 n_permutations) (fun _ acc => permtest_trial x _y acc) [];
      '(p_vals, vip_null) ← lift (empirical_p_values _vip _vip_null n_permutations);
      if return_scores then mret (p_vals, Some vip_null)
      else mret (p_vals, None)
  end.

(** *** Latent-variable estimation *)

(** [x.copy()]: a new list of the same blocks, or a copy of the block. *)
Definition copy_x (x : py_x) : M py_x :=
  match x with
  | XList ls => mret (XList ls)
  | XFrame l => m ← read_frame l; l' ← new_frame m; mret (XFrame l')
  end.

(** Lines 114 to 124: the metric that is used, or the ValueError. *)
Definition validate_metric (y_continuous : bool) (metric : string) : result string :=
  if y_continuous then
    let metric := "q2"%string in
    let allowed_metrics := ["q2"%string] in
    if negb (str_in metric allowed_metrics) then Raise ValueError else Ok metric
  else
    let allowed_metrics :=
      ["auc"; "precision"; "recall"; "f1"; "accuracy"]%string in
    if negb (str_in metric allowed_metrics) then Raise ValueError else Ok metric.

(** The scores of one fold on one side (training or testing folds).  *)
Definition fold_scores (y_continuous : bool) (side : string) (y_true y_predicted : list Q)
    (lv : gmap string (list Q)) : result (gmap string (list Q)) :=
  if y_continuous then
    v ← r2_score y_true y_predicted;
    mret (append_score ("lv_" +:+ side) v lv)
  else
    auc ← roc_auc_score y_true y_predicted;
    let lv := append_score ("lv_" +:+ side +:+ "_auc") auc lv in
    precision ← precision_score y_true (np_where_gt_half y_predicted);
    let lv := append_score ("lv_" +:+ side +:+ "_precision") precision lv in
    recall ← recall_score y_true (np_where_gt_half y_predicted);
    let lv := append_score ("lv_" +:+ side +:+ "_recall") recall lv in
    f1 ← f1_score y_true (np_where_gt_half y_predicted);
    let lv := append_score ("lv_" +:+ side +:+ "_f1") f1 lv in
    accuracy ← accuracy_score y_true (np_where_gt_half y_predicted);
    mret (append_score ("lv_" +:+ side +:+ "_accuracy") accuracy lv).

(** The body of the loop over the folds (lines 163 to 203). *)
Definition cv_fold (data : list loc) (response_y : list Q) (y_continuous : bool)
    (i : nat) (split : list nat * list nat) (lv : gmap string (list Q))
    : M (gmap string (list Q)) :=
  let '(train_indices, test_indices) := split in
  blocks ← read_frames data;
  let train_data := map (fun b => iloc b train_indices) blocks in
  let test_data := map (fun b => iloc b test_indices) blocks in
  let train_test_data := map (fun b => iloc b train_indices) blocks in
  set_n_components i;;
  self_fit_fresh train_data (take_indices response_y train_indices);;
  y_predicted_train ← self_predict train_test_data;
  lv ← lift (fold_scores y_continuous "r2"
               (take_indices response_y train_indices) y_predicted_train lv);
  y_predicted_test ← self_predict test_data;
  lift (fold_scores y_continuous "q2"
          (take_indices response_y test_indices) y_predicted_test lv).

(** Lines 205 to 219: the means of the folds, appended to the curves. *)
Definition append_means (y_continuous : bool) (lv env : gmap string (list Q))
    : result (gmap string (list Q)) :=
  if y_continuous then
    env ← append_mean "r2" "lv_r2" lv env;
    append_mean "q2" "lv_q2" lv env
  else
    env ← append_mean "r2_auc" "lv_r2_auc" lv env;
    env ← append_mean "q2_auc" "lv_q2_auc" lv env;
    env ← append_mean "r2_precision" "lv_r2_precision" lv env;
    env ← append_mean "r2_recall" "lv_r2_recall" lv env;
    env ← append_mean "r2_f1" "lv_r2_f1" lv env;
    env ← append_mean "r2_accuracy" "lv_r2_accuracy" lv env;
    env ← append_mean "q2_precision" "lv_q2_precision" lv env;
    env ← append_mean "q2_recall" "lv_q2_recall" lv env;
    env ← append_mean "q2_f1" "lv_q2_f1" lv env;
    append_mean "q2_accuracy" "lv_q2_accuracy" lv env.

(** The body of the loop over the component counts (lines 145 to 219). *)
Definition cv_component (data : list loc) (response_y : list Q) (no_fold : nat)
    (y_continuous : bool) (i : nat) (env : gmap string (list Q))
    : M (gmap string (list Q)) :=
  splits ← lift (KFold_split no_fold (length response_y));
  lv ← for_in splits (cv_fold data response_y y_continuous i) ∅;
  lift (append_means y_continuous lv env).

(** Lines 221 to 230: the table of the curves. *)
Definition make_perf_scores (y_continuous : bool) (n_components : nat)
    (env : gmap string (list Q)) : list (string * list Q) :=
  if y_continuous then
    [("Number of Components", component_column n_components);
     ("r2", scores_of "r2" env); ("q2", scores_of "q2" env)]%string
  else
    [("Number of Components", component_column n_components);
     ("Training AUC", scores_of "r2_auc" env);
     ("Training Precision", scores_of "r2_precision" env);
     ("Training Recall", scores_of "r2_recall" env);
     ("Training F1 Score", scores_of "r2_f1" env);
     ("Training Accuracy", scores_of "r2_accuracy" env);
     ("Testing AUC", scores_of "q2_auc" env);
     ("Testing Precision", scores_of "q2_precision" env);
     ("Testing Recall", scores_of "q2_recall" env);
     ("Testing F1 Score", scores_of "q2_f1" env);
     ("Testing Accuracy", scores_of "q2_accuracy" env)]%string.

(** Lines 232 to 244: the test-fold curve of the metric.  After the
    validation one of the comparisons holds; [data] is [[]] here where the
    source still has the blocks in it. *)
Definition select_metric (metric : string) (env : gmap string (list Q)) : list Q :=
  let data := [] in
  let data := if (metric =? "q2")%string then scores_of "q2" env else data in
  let data := if (metric =? "auc")%string then scores_of "q2_auc" env else data in
  let data := if (metric =? "precision")%string then scores_of "q2_precision" env else data in
  let data := if (metric =? "recall")%string then scores_of "q2_recall" env else data in
  let data := if (metric =? "f1")%string then scores_of "q2_f1" env else data in
  let data := if (metric =? "accuracy")%string then scores_of "q2_accuracy" env else data in
  data.

(** Lines 246 to 280: bend, plateau, the choice of the count and the
    refit.  In the [try] block [plt.axvline] has raised when there is no
    plateau, so the assignment of the start is reached with a number. *)
Definition select_and_refit (x : py_x) (y : loc) (metric : string) (data : list Q)
    (plateau_threshold increase_threshold : Q) : M unit :=
  bend ← lift (bend_of data increase_threshold);
  let plateau := _find_plateau data plateau_threshold 3 in
  let plateau_range_start := fst <$> plateau in
  let increase := increase_threshold * 100 in
  draw DrawCurves;;
  try_except_TypeError
    (plt_axvline plateau_range_start "Plateau edge";;
     plt_axvline (Some bend) "Bend";;
     print (MsgBend metric increase bend);;
     match plateau_range_start with
     | None => raise TypeError
     | Some start =>
         print (MsgPlateau metric start);;
         set_n_components start;;
         self_fit x y;;
         w ← get_world;
         print (MsgRefitted (n_components (self_ w)))
     end)
    (print (MsgBend metric increase bend);;
     plt_axvline (Some bend) "Bend";;
     print MsgNoPlateau;;
     set_n_components bend;;
     self_fit x y;;
     w ← get_world;
     print (MsgRefitted (n_components (self_ w)))).

(** Lines 103 to 219: the validation of the inputs and the loops that
    build the curves; it answers the metric in use and the curves. *)
Definition cross_validate (x : py_x) (y : loc) (n_components no_fold : nat)
    (y_continuous : bool) (metric : string) : M (string * gmap string (list Q)) :=
  data ← copy_x x;
  data ← as_block_list data;
  _y ← read_array y;
  _y ← lift (check_array _y);
  let response_y := _y in
  metric ← lift (validate_metric y_continuous metric);
  kf ← lift (KFold_init no_fold);
  env ← for_in (seq 1 n_components)
          (cv_component data response_y kf y_continuous) ∅;
  mret (metric, env).

Definition estimate_lv (x : py_x) (y : loc) (n_components no_fold : nat)
    (y_continuous : bool) (metric : string) (plateau_threshold increase_threshold : Q)
    (get_scores : bool) : M (option (list (string * list Q))) :=
  '(metric, env) ← cross_validate x y n_components no_fold y_continuous metric;
  let perf_scores := make_perf_scores y_continuous n_components env in
  let data := select_metric metric env in
  select_and_refit x y metric data plateau_threshold increase_threshold;;
  if get_scores then mret (Some perf_scores) else mret None.



(** *** Notions used in the statements *)

(** The metrics the specification allows for an outcome type. *)
Definition allowed_metrics (y_continuous : bool) : list string :=
  if y_continuous then ["q2"]%string
  else ["auc"; "precision"; "recall"; "f1"; "accuracy"]%string.

(** [a > b] on cells. *)
Definition np_greater (a b : npfloat) : bool :=
  match a, b with
  | NaN, _ | _, NaN => false
  | NegInf, _ => false
  | PosInf, PosInf => false
  | PosInf, _ => true
  | Finite _, PosInf => false
  | Finite _, NegInf => true
  | Finite x, Finite y => Qltb y x
  end.

(** The number of null score vectors whose cell [f] is at least [o]. *)
Definition count_null_ge (f : nat) (o : npfloat) (nulls : list (list npfloat)) : nat :=
  length (List.filter (fun v => np_greater_equal (nth f v NaN) o) nulls).

(** The generator state before the trial number [k] (0-based). *)
Fixpoint rng_before (g : nat) (_y : list Q) (k : nat) : nat :=
  match k with
  | O => g
  | S k' => snd (np_random_permutation (rng_before g _y k') _y)
  end.

(** The response the trial number [k] fits against. *)
Definition y_perm_at (g : nat) (_y : list Q) (k : nat) : list Q :=
  fst (np_random_permutation (rng_before g _y k) _y).

(** The blocks in memory after storing [ms] through [ls], left to right. *)
Fixpoint store_frames (ls : list loc) (ms : list (list (list Q)))
    (h : gmap loc (list (list Q))) : gmap loc (list (list Q)) :=
  match ls, ms with
  | l :: ls', m :: ms' => store_frames ls' ms' (<[l := m]> h)
  | _, _ => h
  end.

(** The world after a successful call of the engine. *)
Definition fitted_world (refs : option (list loc)) (X : list matrix) (y : list Q)
    (f : Fitted) (w : world) : world :=
  with_self {| n_components := n_components (self_ w); copy := copy (self_ w);
               attrs := Some f |}
    (with_fit_log (fit_log w ++ [{| call_n := n_components (self_ w);
                                    call_refs := refs; call_X := X; call_y := y |}]) w).

(** The values of the caller's blocks in a world. *)
Definition frames_of (x : py_x) (w : world) : list matrix :=
  map (fun l => default [] (frames w !! l)) (blocks_of x).

(** [nulls] are the scores of the null models of a run from [w] to [w']:
    the run added one engine call per trial to the history, each at the
    model's component count, on the caller's block references and on the
    shuffled response of its trial, and the scores number [k] are those of
    the attributes the engine answered to the call number [k]. *)
Definition null_trials (x : py_x) (_y : list Q) (w w' : world)
    (nulls : list (list npfloat)) : Prop :=
  exists (calls : list fit_call) (fs : list Fitted),
    fit_log w' = fit_log w ++ calls /\ length calls = length nulls /\
    nulls = map vip_of fs /\
    forall (k : nat) (c : fit_call), calls !! k = Some c ->
      call_n c = n_components (self_ w) /\
      call_refs c = Some (blocks_of x) /\
      call_y c = y_perm_at (rng w) _y k /\
      exists f residue,
        fs !! k = Some f /\
        engine_fit (call_n c) (call_X c) (call_y c) = Some (f, residue).

(** The p-values as the specification words them: for every feature, the
    number of null trials whose score is at least the observed one, over
    the number of trials. *)
Definition spec_p_values (vip_obs : list npfloat) (nulls : list (list npfloat))
    (M : nat) : list Q :=
  map (fun feat => inject_Z (Z.of_nat (count_null_ge feat (nth feat vip_obs NaN) nulls))
                   / inject_Z (Z.of_nat M))
      (seq 0 (length vip_obs)).

(** The count the resolution policy selects: the start of the plateau when
    there is one, else the bend. *)
Definition selected_count (data : list Q) (plateau_threshold : Q) (bend : nat) : nat :=
  match _find_plateau data plateau_threshold 3 with
  | Some (start, _) => start
  | None => bend
  end.

(** What [estimate_lv] prints after the curves: the bend, then the plateau
    or the advice to explore more latent variables, then the refit. *)
Definition selection_messages (metric : string) (data : list Q)
    (plateau_threshold increase_threshold : Q) (bend : nat) : list message :=
  match _find_plateau data plateau_threshold 3 with
  | Some (start, _) =>
      [MsgBend metric (increase_threshold * 100) bend; MsgPlateau metric start;
       MsgRefitted start]
  | None =>
      [MsgBend metric (increase_threshold * 100) bend; MsgNoPlateau;
       MsgRefitted bend]
  end.

(** The world [w'] is the world [w1] (the curves are built) after the
    selection and the refit: the model holds the selected count and the
    attributes [f] the engine answered on the caller's full blocks and
    response, that call is the last of the history, and the messages of
    the selection are printed. *)
Definition refitted_at_selection (x : py_x) (y : loc) (metric : string) (data : list Q)
    (plateau_threshold increase_threshold : Q) (bend : nat) (f : Fitted)
    (w1 w' : world) : Prop :=
  let selected := selected_count data plateau_threshold bend in
  self_ w' = {| n_components := selected; copy := copy (self_ w1); attrs := Some f |} /\
  fit_log w' = fit_log w1 ++
    [{| call_n := selected; call_refs := Some (blocks_of x);
        call_X := frames_of x w1; call_y := default [] (arrays w1 !! y) |}] /\
  stdout w' = stdout w1 ++
    selection_messages metric data plateau_threshold increase_threshold bend.

(** The call of the engine for the candidate count [i] on the training
    rows of a fold: no caller's reference, the rows [train] of every block
    and of the response. *)
Definition fold_call (blocks : list matrix) (response_y : list Q) (i : nat)
    (split : list nat * list nat) : fit_call :=
  {| call_n := i; call_refs := None;
     call_X := map (fun b => iloc b (fst split)) blocks;
     call_y := take_indices response_y (fst split) |}.

(** The calls of the cross-validation: for every candidate count from 1
    to [n], one call per fold. *)
Definition cv_calls (blocks : list matrix) (response_y : list Q)
    (splits : list (list nat * list nat)) (n : nat) : list fit_call :=
  flat_map (fun i => map (fold_call blocks response_y i) splits) (seq 1 n).

(** The model after a series of successful calls of the engine: the count
    and the attributes of the last call. *)
Definition model_after (calls : list fit_call) (o : MamsiPls) : MamsiPls :=
  match last calls with
  | None => o
  | Some c =>
      {| n_components := call_n c; copy := copy o;
         attrs := fst <$> engine_fit (call_n c) (call_X c) (call_y c) |}
  end.

(** The names of the curves [estimate_lv] fills for an outcome type. *)
Definition curve_names (y_continuous : bool) : list string :=
  if y_continuous then ["r2"; "q2"]%string
  else ["r2_auc"; "q2_auc"; "r2_precision"; "r2_recall"; "r2_f1"; "r2_accuracy";
        "q2_precision"; "q2_recall"; "q2_f1"; "q2_accuracy"]%string.

(** The fitted attributes with all block weights multiplied by -1. *)
Definition negate_W (f : Fitted) : Fitted :=
  {| W_ := map (map (map Qopp)) (W_ f); P_ := P_ f; Ts_ := Ts_ f; V_ := V_ f |}.

Definition negate_weights (w : world) : world :=
  with_self {| n_components := n_components (self_ w); copy := copy (self_ w);
               attrs := negate_W <$> attrs (self_ w) |} w.

(** ** Properties of the curve-shape analysis *)

#[local] Arguments Qabs : simpl never.
#[local] Arguments Qminus : simpl never.
#[local] Arguments Qplus : simpl never.
#[local] Arguments Qmult : simpl never.
#[local] Arguments Qdiv : simpl never.
#[local] Arguments Qopp : simpl never.
#[local] Arguments Qpower : simpl never.
#[local] Arguments Qle_bool : simpl never.
#[local] Arguments Qeq_bool : simpl never.
#[local] Arguments inject_Z : simpl never.

Lemma Qgtb_false (a b : Q) : Qgtb a b = false <-> a <= b.
Proof.
  unfold Qgtb. rewrite negb_false_iff. apply Qle_bool_iff.
Qed.

(** The inner loop answers whether all the adjacent pairs it visits are
    within the threshold. *)
Lemma plateau_inner_spec (scores : list Q) (thr : Q) (i : nat) (js : list nat) :
  plateau_inner scores thr i js = true <->
  forall j, In j js -> Qabs (nth (i + j) scores 0 - nth (i + j - 1) scores 0) <= thr.
Proof.
  induction js as [|j js IH]; simpl.
  - split; [intros _ j []|reflexivity].
  - destruct (Qgtb _ thr) eqn:E.
    + split; [discriminate|]. intros H.
      assert (Hj := H j (or_introl eq_refl)).
      apply Qgtb_false in Hj. congruence.
    + apply Qgtb_false in E. rewrite IH. split.
      * intros H j' [<-|Hin]; auto.
      * intros H j' Hin. apply H. now right.
Qed.

Lemma plateau_inner_window (scores : list Q) (thr : Q) (c i : nat) :
  plateau_inner scores thr i (seq 0 (c - 1)) = true <->
  forall k, (S k < c)%nat ->
    Qabs (nth (i + k) scores 0 - nth (i + k - 1) scores 0) <= thr.
Proof.
  rewrite plateau_inner_spec. split.
  - intros H k Hk. apply H. apply in_seq. lia.
  - intros H j Hj. apply in_seq in Hj. apply H. lia.
Qed.

(** The outer loop answers the first index of its range whose window is
    flat. *)
Lemma plateau_outer_some (scores : list Q) (thr : Q) (c : nat) (range_ : list nat)
    (s e : nat) :
  plateau_outer scores thr c range_ = Some (s, e) <->
  exists before after,
    range_ = before ++ s :: after /\ e = (s + c - 1)%nat /\
    plateau_inner scores thr s (seq 0 (c - 1)) = true /\
    forall i, In i before -> plateau_inner scores thr i (seq 0 (c - 1)) = false.
Proof.
  induction range_ as [|i rest IH]; simpl.
  - split; [discriminate|]. intros (b & a & H & _). destruct b; discriminate.
  - destruct (plateau_inner scores thr i _) eqn:E.
    + split.
      * intros [= <- <-]. exists [], rest. repeat split; auto. intros ? [].
      * intros (b & a & H & -> & Hs & Hb). destruct b as [|i' b]; simpl in H.
        -- now injection H as <- _.
        -- injection H as <- _. rewrite (Hb i) in E; [discriminate|now left].
    + rewrite IH. split.
      * intros (b & a & -> & -> & Hs & Hb). exists (i :: b), a.
        repeat split; auto. intros i' [<-|Hin]; auto.
      * intros (b & a & H & -> & Hs & Hb). destruct b as [|i' b]; simpl in H.
        -- injection H as <- _. congruence.
        -- injection H as <- ->. exists b, a. repeat split; auto.
           intros i'' Hin. apply Hb. now right.
Qed.

Lemma plateau_outer_none (scores : list Q) (thr : Q) (c : nat) (range_ : list nat) :
  plateau_outer scores thr c range_ = None <->
  forall i, In i range_ -> plateau_inner scores thr i (seq 0 (c - 1)) = false.
Proof.
  induction range_ as [|i rest IH]; simpl.
  - split; [intros _ ? []|reflexivity].
  - destruct (plateau_inner scores thr i _) eqn:E.
    + split; [discriminate|]. intros H. rewrite (H i) in E; [discriminate|now left].
    + rewrite IH. split.
      * intros H i' [<-|Hin]; auto.
      * intros H i' Hin. apply H. now right.
Qed.

Lemma seq_split_at (start len : nat) (before after : list nat) (s : nat) :
  seq start len = before ++ s :: after ->
  (start <= s < start + len)%nat /\
  forall i, (start <= i < s)%nat -> In i before.
Proof.
  revert start before. induction len as [|len IH]; intros start before H; simpl in H.
  - destruct before; discriminate.
  - destruct before as [|b before]; simpl in H.
    + injection H as <- _. split; [lia|]. intros i Hi. lia.
    + injection H as <- H. apply IH in H as [Hs Hb]. split; [lia|].
      intros i Hi. destruct (Nat.eq_dec i start) as [->|Hne]; [now left|].
      right. apply Hb. lia.
Qed.

(** What [_find_plateau] answers is a plateau window, and the first one. *)
Lemma find_plateau_sound (scores : list Q) (thr : Q) (c s e : nat) :
  _find_plateau scores thr c = Some (s, e) ->
  e = (s + c - 1)%nat /\ (s + c <= length scores)%nat /\
  is_plateau scores thr c s /\
  forall s', (1 <= s' < s)%nat -> ~ is_plateau scores thr c s'.
Proof.
  unfold _find_plateau. intros H.
  apply plateau_outer_some in H as (b & a & Hseq & -> & Hs & Hb).
  apply seq_split_at in Hseq as [Hrange Hbefore].
  split; [reflexivity|]. split; [lia|]. split.
  - split; [lia|]. split; [lia|]. now apply plateau_inner_window.
  - intros s' Hs' (_ & _ & Hflat).
    apply plateau_inner_window in Hflat.
    rewrite (Hb s') in Hflat; [discriminate|]. apply Hbefore. lia.
Qed.

(** When [_find_plateau] answers nothing, no window that ends before the
    last score is a plateau. *)
Lemma find_plateau_none (scores : list Q) (thr : Q) (c : nat) :
  _find_plateau scores thr c = None <->
  forall s, (1 <= s)%nat -> (s + c <= length scores)%nat ->
    ~ (forall k, (S k < c)%nat ->
         Qabs (nth (s + k) scores 0 - nth (s + k - 1) scores 0) <= thr).
Proof.
  unfold _find_plateau. rewrite plateau_outer_none. split.
  - intros H s Hs Hlen Hflat. apply plateau_inner_window in Hflat.
    rewrite H in Hflat; [discriminate|]. apply in_seq. lia.
  - intros H i Hi. apply in_seq in Hi.
    destruct (plateau_inner scores thr i _) eqn:E; [|reflexivity].
    exfalso. apply (H i); [lia|lia|]. now apply plateau_inner_window.
Qed.

(** A sequence without any plateau window gets no plateau. *)
Lemma find_plateau_no_window (scores : list Q) (thr : Q) (c : nat) :
  (forall s, ~ is_plateau scores thr c s) -> _find_plateau scores thr c = None.
Proof.
  intros H. apply find_plateau_none. intros s Hs Hlen Hflat.
  apply (H s). split; [lia|]. split; [lia|]. exact Hflat.
Qed.

(** *** The bend *)

Lemma np_where_from_ge (mask : list bool) (s i : nat) :
  In i (np_where_from s mask) -> (s <= i)%nat.
Proof.
  revert s. induction mask as [|b mask IH]; intros s; cbn [np_where_from In].
  - intros [].
  - destruct b; cbn [In]; [intros [<-|H]|intros H]; try lia;
      apply IH in H; lia.
Qed.

Lemma fold_min_head (t : list nat) (x : nat) :
  (forall z, In z t -> (x <= z)%nat) -> fold_left Nat.min t x = x.
Proof.
  revert x. induction t as [|z t IH]; intros x H; cbn [fold_left]; [reflexivity|].
  rewrite Nat.min_l by (apply H; now left).
  apply IH. intros z' Hz'. apply H. now right.
Qed.

(** The positions [np.where] lists: empty when no cell is true, else the
    head is the first true cell. *)
Lemma np_where_from_nil (mask : list bool) (s : nat) :
  np_where_from s mask = [] <-> forall k, nth k mask false = false.
Proof.
  revert s. induction mask as [|b mask IH]; intros s; cbn [np_where_from].
  - split; [|reflexivity]. intros _ [|k]; reflexivity.
  - destruct b.
    + split; [discriminate|]. intros H. specialize (H 0%nat). discriminate.
    + rewrite IH. split.
      * intros H [|k]; [reflexivity|apply H].
      * intros H k. apply (H (S k)).
Qed.

Lemma np_where_from_head (mask : list bool) (s x : nat) (t : list nat) :
  np_where_from s mask = x :: t ->
  (s <= x)%nat /\ nth (x - s) mask false = true /\
  (forall k, (k < x - s)%nat -> nth k mask false = false) /\
  forall z, In z t -> (x <= z)%nat.
Proof.
  revert s. induction mask as [|b mask IH]; intros s; cbn [np_where_from].
  - discriminate.
  - destruct b.
    + intros [= <- <-]. rewrite Nat.sub_diag. repeat split; [lia| |].
      * intros k Hk. lia.
      * intros z Hz. apply np_where_from_ge in Hz. lia.
    + intros H. apply IH in H as (Hs & Hx & Hfirst & Ht).
      replace (x - s)%nat with (S (x - S s)) by lia.
      repeat split; [lia|exact Hx| |exact Ht].
      intros [|k] Hk; [reflexivity|]. apply Hfirst. lia.
Qed.

Lemma np_min_where (mask : list bool) (m : nat) :
  np_min (np_where mask) = Ok m <->
  nth m mask false = true /\ forall k, (k < m)%nat -> nth k mask false = false.
Proof.
  unfold np_min, np_where. destruct (np_where_from 0 mask) as [|x t] eqn:E.
  - split; [discriminate|]. intros [Hm _].
    rewrite (proj1 (np_where_from_nil mask 0) E) in Hm. discriminate.
  - apply np_where_from_head in E as (_ & Hx & Hfirst & Ht).
    rewrite Nat.sub_0_r in Hx, Hfirst. rewrite (fold_min_head _ _ Ht). split.
    + intros [= <-]. split; assumption.
    + intros [Hm Hbefore]. f_equal.
      destruct (Nat.lt_trichotomy x m) as [Hlt|[Heq|Hgt]]; [|exact Heq|].
      * rewrite (Hbefore x Hlt) in Hx. discriminate.
      * rewrite (Hfirst m Hgt) in Hm. discriminate.
Qed.

Lemma np_min_where_raise (mask : list bool) (e : exn) :
  np_min (np_where mask) = Raise e <->
  e = ValueError /\ forall k, nth k mask false = false.
Proof.
  unfold np_min, np_where. destruct (np_where_from 0 mask) as [|x t] eqn:E.
  - pose proof (proj1 (np_where_from_nil mask 0) E) as Hnil. split.
    + intros [= <-]. split; [reflexivity|exact Hnil].
    + intros [-> _]. reflexivity.
  - apply np_where_from_head in E as (_ & Hx & _). rewrite Nat.sub_0_r in Hx.
    split; [discriminate|]. intros [_ H]. rewrite H in Hx. discriminate.
Qed.

Lemma np_diff_length (a : list Q) : length (np_diff a) = (length a - 1)%nat.
Proof.
  induction a as [|x [|y t] IH]; try reflexivity.
  change (np_diff (x :: y :: t)) with ((y - x) :: np_diff (y :: t)).
  cbn [length] in *. lia.
Qed.

Lemma np_diff_nth (a : list Q) (k : nat) :
  (S k < length a)%nat -> nth k (np_diff a) 0 = nth (S k) a 0 - nth k a 0.
Proof.
  revert k. induction a as [|x [|y t] IH]; intros k Hk; cbn [length] in Hk; try lia.
  change (np_diff (x :: y :: t)) with ((y - x) :: np_diff (y :: t)).
  destruct k as [|k]; [reflexivity|].
  cbn [nth]. rewrite IH by (cbn [length]; lia). reflexivity.
Qed.

(** The cells of the mask of [estimate_lv] are the comparisons of the
    normalized differences, and there is one per difference. *)
Lemma bend_mask_nth (d0 : Q) (t : list Q) (thr : Q) (k : nat) :
  nth k (bend_mask (d0 :: t) d0 thr) false =
  if (k <? length t)%nat then bend_below (d0 :: t) thr k else false.
Proof.
  unfold bend_mask, bend_below.
  destruct (k <? length t)%nat eqn:E.
  - apply Nat.ltb_lt in E.
    rewrite (nth_indep _ false (np_less (np_true_divide 0 d0) thr))
      by (rewrite length_map, np_diff_length; cbn [length]; lia).
    rewrite (map_nth (fun d => np_less (np_true_divide d d0) thr)).
    rewrite np_diff_nth by (cbn [length]; lia). reflexivity.
  - apply Nat.ltb_ge in E. apply nth_overflow.
    rewrite length_map, np_diff_length. cbn [length]. lia.
Qed.

Lemma bend_of_ok (scores : list Q) (thr : Q) (b : nat) :
  bend_of scores thr = Ok b <->
  (1 <= b < length scores)%nat /\ bend_below scores thr (b - 1) = true /\
  forall k, (k < b - 1)%nat -> bend_below scores thr k = false.
Proof.
  destruct scores as [|d0 t]; cbn [bend_of length].
  - split; [discriminate|]. lia.
  - destruct (np_min _) as [m|e] eqn:E.
    + apply np_min_where in E as [Hm Hfirst].
      rewrite bend_mask_nth in Hm.
      destruct (m <? length t)%nat eqn:Hlt; [|discriminate].
      apply Nat.ltb_lt in Hlt. split.
      * intros [= <-]. replace (m + 1 - 1)%nat with m by lia.
        split; [lia|]. split; [exact Hm|].
        intros k Hk. specialize (Hfirst k Hk). rewrite bend_mask_nth in Hfirst.
        destruct (k <? length t)%nat eqn:Hk'; [exact Hfirst|].
        apply Nat.ltb_ge in Hk'. lia.
      * intros (Hb & Hbelow & Hbefore). f_equal.
        destruct (Nat.lt_trichotomy (b - 1) m) as [Hc|[Hc|Hc]]; [|lia|].
        -- specialize (Hfirst _ Hc). rewrite bend_mask_nth in Hfirst.
           replace (b - 1 <? length t)%nat with true in Hfirst
             by (symmetry; apply Nat.ltb_lt; lia).
           congruence.
        -- rewrite (Hbefore m Hc) in Hm. discriminate.
    + apply np_min_where_raise in E as [-> Hnone].
      split; [discriminate|]. intros (Hb & Hbelow & _).
      specialize (Hnone (b - 1)%nat). rewrite bend_mask_nth in Hnone.
      replace (b - 1 <? length t)%nat with true in Hnone
        by (symmetry; apply Nat.ltb_lt; lia).
      congruence.
Qed.

Lemma bend_of_raise (scores : list Q) (thr : Q) :
  (forall k, (S k < length scores)%nat -> bend_below scores thr k = false) ->
  bend_of scores thr = Raise (match scores with [] => IndexError | _ => ValueError end).
Proof.
  intros H. destruct scores as [|d0 t]; cbn [bend_of]; [reflexivity|].
  destruct (np_min _) as [m|e] eqn:E.
  - apply np_min_where in E as [Hm _]. rewrite bend_mask_nth in Hm.
    destruct (m <? length t)%nat eqn:Hlt; [|discriminate].
    apply Nat.ltb_lt in Hlt. rewrite H in Hm by (cbn [length]; lia). discriminate.
  - apply np_min_where_raise in E as [-> _]. reflexivity.
Qed.

(** C2. The bend [estimate_lv] computes is the first position, counted
    from 1 over the successive differences, whose difference divided by
    [scores[0]] is below [increase_threshold]; on the curve
    [0.5, 0.7, 0.71, 0.715] with the threshold 0.05 it is 2. *)
Theorem bend_is_first_index_below_threshold :
  bend_of [0.5; 0.7; 0.71; 0.715] 0.05 = Ok 2%nat /\
  forall (scores : list Q) (increase_threshold : Q) (b : nat),
    bend_of scores increase_threshold = Ok b <->
    (1 <= b < length scores)%nat /\
    bend_below scores increase_threshold (b - 1) = true /\
    forall k, (k < b - 1)%nat -> bend_below scores increase_threshold k = false.
Proof.
  split; [reflexivity|]. intros scores thr b. apply bend_of_ok.
Qed.

(** C1. On the curve [0.5, 0.7, 0.7, 0.7] the last three scores are a
    plateau (the component counts 2 to 4), the first one in the curve,
    yet [_find_plateau] answers (None, None): its scan stops one window
    short and never reads the last score. *)
Theorem find_plateau_misses_last_window :
  _find_plateau [0.5; 0.7; 0.7; 0.7] 0.01 3 = None /\
  is_plateau [0.5; 0.7; 0.7; 0.7] 0.01 3 2 /\
  spec_find_plateau [0.5; 0.7; 0.7; 0.7] 0.01 3 = Some (2, 4)%nat.
Proof.
  split; [reflexivity|]. split; [|reflexivity].
  split; [lia|]. split; [cbn [length]; lia|].
  intros [|[|k]] Hk; [vm_compute; discriminate..|lia].
Qed.

(** Any plateau window that ends before the last score is found, or an
    earlier one is. *)
Lemma find_plateau_complete (scores : list Q) (thr : Q) (c s : nat) :
  is_plateau scores thr c s -> (s + c <= length scores)%nat ->
  exists s' e, _find_plateau scores thr c = Some (s', e) /\ (s' <= s)%nat.
Proof.
  intros Hp Hlen. destruct (_find_plateau scores thr c) as [[s' e]|] eqn:E.
  - exists s', e. split; [reflexivity|].
    apply find_plateau_sound in E as (_ & _ & _ & Hfirst).
    destruct (Nat.le_gt_cases s' s) as [|Hlt]; [assumption|].
    destruct Hp as (Hs & Hp). exfalso. apply (Hfirst s); [lia|].
    split; assumption.
  - destruct Hp as (Hs & _ & Hflat).
    exfalso. apply (proj1 (find_plateau_none scores thr c) E s Hs Hlen Hflat).
Qed.

(** *** The scan of the source against the scan of the specification *)

Lemma is_plateaub_spec (scores : list Q) (thr : Q) (c s : nat) :
  is_plateaub scores thr c s = true <-> is_plateau scores thr c s.
Proof.
  unfold is_plateaub, is_plateau.
  rewrite !andb_true_iff, Nat.leb_le, Nat.leb_le, forallb_forall. split.
  - intros [[Hs Hlen] Hflat]. split; [exact Hs|]. split; [exact Hlen|].
    intros k Hk. apply Qle_bool_iff, Hflat, in_seq. lia.
  - intros (Hs & Hlen & Hflat). split; [split; assumption|].
    intros k Hk. apply in_seq in Hk. apply Qle_bool_iff, Hflat. lia.
Qed.

Lemma find_seq_some (P : nat -> bool) (start len s : nat) :
  List.find P (seq start len) = Some s <->
  (start <= s < start + len)%nat /\ P s = true /\
  forall i, (start <= i < s)%nat -> P i = false.
Proof.
  revert start. induction len as [|len IH]; intros start; cbn [seq List.find].
  - split; [discriminate|]. lia.
  - destruct (P start) eqn:E.
    + split.
      * intros [= <-]. split; [lia|]. split; [exact E|]. lia.
      * intros (Hs & HP & Hfirst). f_equal.
        destruct (Nat.eq_dec start s) as [|Hne]; [assumption|].
        rewrite Hfirst in E by lia. discriminate.
    + rewrite IH. split.
      * intros (Hs & HP & Hfirst). split; [lia|]. split; [exact HP|].
        intros i Hi. destruct (Nat.eq_dec i start) as [->|Hne]; [exact E|].
        apply Hfirst. lia.
      * intros (Hs & HP & Hfirst).
        assert (start <> s) by (intros ->; congruence).
        split; [lia|]. split; [exact HP|]. intros i Hi. apply Hfirst. lia.
Qed.

(** What the specification's scan answers: the first plateau window. *)
Lemma spec_find_plateau_some (scores : list Q) (thr : Q) (c s e : nat) :
  spec_find_plateau scores thr c = Some (s, e) <->
  e = (s + c - 1)%nat /\ (s <= length scores)%nat /\ is_plateau scores thr c s /\
  forall s', (1 <= s' < s)%nat -> ~ is_plateau scores thr c s'.
Proof.
  unfold spec_find_plateau.
  destruct (List.find _ _) as [s0|] eqn:E.
  - apply find_seq_some in E as (Hs0 & HP & Hfirst).
    apply is_plateaub_spec in HP. split.
    + intros [= <- <-]. split; [reflexivity|]. split; [lia|]. split; [exact HP|].
      intros s' Hs' Hp'. apply is_plateaub_spec in Hp'.
      rewrite Hfirst in Hp' by lia. discriminate.
    + intros (-> & Hlen & Hp & Hfirst'). 
      assert (Hs1 : (1 <= s)%nat) by (destruct Hp; assumption).
      destruct (Nat.lt_trichotomy s0 s) as [Hlt|[->|Hgt]]; [|reflexivity|].
      * exfalso. apply (Hfirst' s0); [lia|exact HP].
      * apply is_plateaub_spec in Hp. rewrite Hfirst in Hp by lia. discriminate.
  - split; [discriminate|]. intros (_ & Hlen & Hp & _).
    assert (Hs1 : (1 <= s)%nat) by (destruct Hp; assumption).
    apply is_plateaub_spec in Hp.
    apply List.find_none with (x := s) in E; [congruence|]. apply in_seq. lia.
Qed.

(** A pair the source answers is the pair of the specification. *)
Lemma find_plateau_refines (scores : list Q) (thr : Q) (c s e : nat) :
  _find_plateau scores thr c = Some (s, e) ->
  spec_find_plateau scores thr c = Some (s, e).
Proof.
  intros H. apply find_plateau_sound in H as (-> & Hlen & Hp & Hfirst).
  apply spec_find_plateau_some. split; [reflexivity|]. split; [lia|].
  split; assumption.
Qed.

(** The two scans agree unless the first plateau is the window that ends
    at the last score, which the source does not visit. *)
Lemma find_plateau_agrees_before_last (scores : list Q) (thr : Q) (c s e : nat) :
  spec_find_plateau scores thr c = Some (s, e) ->
  (s + c <= length scores)%nat ->
  _find_plateau scores thr c = Some (s, e).
Proof.
  intros H Hlen. apply spec_find_plateau_some in H as (-> & _ & Hp & Hfirst).
  destruct (find_plateau_complete scores thr c s Hp Hlen) as (s' & e' & Hfound & Hle).
  pose proof (find_plateau_sound _ _ _ _ _ Hfound) as (-> & _ & Hp' & _).
  destruct (Nat.eq_dec s' s) as [->|Hne]; [exact Hfound|].
  exfalso. apply (Hfirst s'); [|exact Hp'].
  destruct Hp' as (Hs' & _). lia.
Qed.

(** ** Running the monad *)

Lemma bind_run {A B} (m : M A) (f : A -> M B) (w : world) :
  (m ≫= f) w =
  match m w with
  | (Ok a, w') => f a w'
  | (Raise e, w') => (Raise e, w')
  end.
Proof. reflexivity. Qed.

Lemma bind_ok {A B} (m : M A) (f : A -> M B) (w w' : world) (b : B) :
  (m ≫= f) w = (Ok b, w') <->
  exists a w1, m w = (Ok a, w1) /\ f a w1 = (Ok b, w').
Proof.
  rewrite bind_run. destruct (m w) as [[a|e] w1].
  - split; [intros H; exists a, w1; auto|].
    intros (a' & w1' & [= <- <-] & H). exact H.
  - split; [discriminate|]. intros (a' & w1' & [=] & _).
Qed.

Lemma world_eta (w : world) :
  {| self_ := self_ w; frames := frames w; arrays := arrays w; rng := rng w;
     stdout := stdout w; figure := figure w; fit_log := fit_log w |} = w.
Proof. destruct w; reflexivity. Qed.

Ltac munfold :=
  unfold read_frames, read_frame, read_array, set_n_components, set_self,
    set_frames, set_arrays, set_rng, print, draw, log_fit.

Ltac mstep :=
  rewrite ?bind_run;
  cbn [get_world modify mret M_ret lift raise fst snd].

Lemma write_frames_run (ls : list loc) (ms : list (list (list Q))) (w : world) :
  write_frames ls ms w = (Ok tt, with_frames (store_frames ls ms (frames w)) w).
Proof.
  revert ms w. induction ls as [|l ls IH]; intros ms w.
  - cbn. unfold with_frames. now rewrite world_eta.
  - destruct ms as [|m ms].
    + cbn. unfold with_frames. now rewrite world_eta.
    + cbn [write_frames store_frames]. munfold. do 2 mstep.
      rewrite IH. reflexivity.
Qed.

Lemma fit_values_run (refs : option (list loc)) (X : list matrix) (y : list Q) (w : world) :
  fit_values refs X y w =
  match engine_fit (n_components (self_ w)) X y with
  | Some (f, residue) => (Ok residue, fitted_world refs X y f w)
  | None => (Raise EngineError, w)
  end.
Proof.
  unfold fit_values. munfold. mstep.
  destruct (engine_fit _ X y) as [[f residue]|]; reflexivity.
Qed.

Lemma self_fit_blocks_run (x : py_x) (y : list Q) (w : world) :
  self_fit_blocks x y w =
  match engine_fit (n_components (self_ w)) (frames_of x w) y with
  | Some (f, residue) =>
      let w1 := fitted_world (Some (blocks_of x)) (frames_of x w) y f w in
      (Ok tt, if copy (self_ w) then w1
              else with_frames (store_frames (blocks_of x) (fst residue) (frames w)) w1)
  | None => (Raise EngineError, w)
  end.
Proof.
  unfold self_fit_blocks. munfold. repeat mstep. rewrite fit_values_run.
  fold (frames_of x w).
  destruct (engine_fit _ _ y) as [[f residue]|]; [|reflexivity].
  mstep. cbn [fitted_world with_self self_ copy].
  destruct (copy (self_ w)); [reflexivity|].
  rewrite write_frames_run. reflexivity.
Qed.

Lemma self_fit_run (x : py_x) (y : loc) (w : world) :
  self_fit x y w =
  let yv := default [] (arrays w !! y) in
  match engine_fit (n_components (self_ w)) (frames_of x w) yv with
  | Some (f, residue) =>
      let w1 := fitted_world (Some (blocks_of x)) (frames_of x w) yv f w in
      (Ok tt, if copy (self_ w) then w1
              else with_arrays (<[y := snd residue]> (arrays w))
                     (with_frames (store_frames (blocks_of x) (fst residue) (frames w)) w1))
  | None => (Raise EngineError, w)
  end.
Proof.
  unfold self_fit. munfold. repeat mstep. rewrite fit_values_run.
  fold (frames_of x w). cbv zeta.
  destruct (engine_fit _ _ _) as [[f residue]|]; [|reflexivity].
  mstep. cbn [fitted_world with_self self_ copy].
  destruct (copy (self_ w)); [reflexivity|].
  mstep. rewrite write_frames_run. mstep. reflexivity.
Qed.

Lemma mb_vip_run (plot : bool) (w : world) :
  mb_vip plot w =
  match attrs (self_ w) with
  | None => (Raise NotFittedError, w)
  | Some f => (Ok (vip_of f),
               if plot then with_figure (figure w ++ [DrawVip]) w else w)
  end.
Proof.
  unfold mb_vip. munfold. mstep.
  destruct (attrs (self_ w)); [|reflexivity].
  destruct plot; reflexivity.
Qed.

(** One trial of the permutation test: the generator advances, the engine
    is called on the caller's own blocks and on the shuffled response, and
    the scores of the refitted model are appended. *)
Lemma permtest_trial_ok (x : py_x) (_y : list Q) (acc r : list (list npfloat))
    (w w' : world) :
  permtest_trial x _y acc w = (Ok r, w') ->
  let n := n_components (self_ w) in
  let y_perm := fst (np_random_permutation (rng w) _y) in
  exists f residue,
    engine_fit n (frames_of x w) y_perm = Some (f, residue) /\
    r = acc ++ [vip_of f] /\
    self_ w' = {| n_components := n; copy := copy (self_ w); attrs := Some f |} /\
    fit_log w' = fit_log w ++ [{| call_n := n; call_refs := Some (blocks_of x);
                                  call_X := frames_of x w; call_y := y_perm |}] /\
    rng w' = snd (np_random_permutation (rng w) _y) /\
    arrays w' = arrays w /\ stdout w' = stdout w /\ figure w' = figure w /\
    frames w' = if copy (self_ w) then frames w
                else store_frames (blocks_of x) (fst residue) (frames w).
Proof.
  unfold permtest_trial. mstep.
  destruct (np_random_permutation (rng w) _y) as [y_perm g] eqn:Eperm.
  munfold. repeat mstep. rewrite self_fit_blocks_run.
  cbn [with_rng self_ frames frames_of fst snd].
  change (map _ (blocks_of x)) with (frames_of x w).
  destruct (engine_fit _ _ y_perm) as [[f residue]|] eqn:Efit; [|discriminate].
  cbv zeta. mstep. rewrite mb_vip_run.
  destruct (copy (self_ w)) eqn:Ecopy; cbn; intros [= <- <-];
    exists f, residue; cbn; rewrite ?Ecopy; repeat split; reflexivity.
Qed.
Lemma rng_before_shift (g : nat) (_y : list Q) (k : nat) :
  rng_before (snd (np_random_permutation g _y)) _y k = rng_before g _y (S k).
Proof.
  induction k as [|k IH]; [reflexivity|].
  cbn [rng_before] in *. now rewrite IH.
Qed.

(** The loop of the permutation test, trial by trial. *)
Lemma permtest_loop_ok (x : py_x) (_y : list Q) (idx : list nat) :
  forall (acc nulls : list (list npfloat)) (w w' : world),
    for_in idx (fun _ acc => permtest_trial x _y acc) acc w = (Ok nulls, w') ->
    exists (calls : list fit_call) (fs : list Fitted),
      length calls = length idx /\ length fs = length idx /\
      nulls = acc ++ map vip_of fs /\
      fit_log w' = fit_log w ++ calls /\
      n_components (self_ w') = n_components (self_ w) /\
      copy (self_ w') = copy (self_ w) /\
      attrs (self_ w') = match last fs with Some f => Some f | None => attrs (self_ w) end /\
      arrays w' = arrays w /\ stdout w' = stdout w /\ figure w' = figure w /\
      rng w' = rng_before (rng w) _y (length idx) /\
      (copy (self_ w) = true -> frames w' = frames w) /\
      forall (k : nat) (c : fit_call), calls !! k = Some c ->
        call_n c = n_components (self_ w) /\
        call_refs c = Some (blocks_of x) /\
        call_y c = y_perm_at (rng w) _y k /\
        exists f residue,
          fs !! k = Some f /\
          engine_fit (call_n c) (call_X c) (call_y c) = Some (f, residue).
Proof.
  induction idx as [|i idx IH]; intros acc nulls w w' H.
  - cbn in H. injection H as <- <-. exists [], [].
    cbn. rewrite !app_nil_r. repeat split; try reflexivity; done.
  - cbn [for_in] in H. apply bind_ok in H as (acc1 & w1 & Htrial & Hrest).
    apply permtest_trial_ok in Htrial
      as (f & residue & Hfit & -> & Hself & Hlog & Hrng & Harr & Hout & Hfig & Hfr).
    apply IH in Hrest
      as (calls & fs & Hlc & Hlf & -> & Hlog' & Hn & Hcopy & Hattrs & Harr' & Hout'
          & Hfig' & Hrng' & Hfr' & Hcalls).
    rewrite Hself in Hn, Hcopy, Hattrs, Hfr', Hcalls. cbn in Hn, Hcopy, Hattrs, Hfr', Hcalls.
    eexists (_ :: calls), (f :: fs).
    split; [cbn; now rewrite Hlc|]. split; [cbn; now rewrite Hlf|].
    split; [cbn; now rewrite <- app_assoc|].
    split; [rewrite Hlog', Hlog, <- app_assoc; reflexivity|].
    split; [exact Hn|]. split; [exact Hcopy|].
    split; [rewrite Hattrs, last_cons; destruct (last fs); reflexivity|].
    split; [congruence|]. split; [congruence|]. split; [congruence|].
    split; [rewrite Hrng', Hrng; apply rng_before_shift|].
    split.
    + intros Hc. rewrite Hfr' by exact Hc. rewrite Hfr, Hc. reflexivity.
    + intros [|k] c Hk.
      * injection Hk as <-. cbn. repeat split.
        exists f, residue. split; [reflexivity|exact Hfit].
      * cbn in Hk. apply Hcalls in Hk as (Hcn & Hcr & Hcy & f' & res' & Hf' & Hfit').
        repeat split; [exact Hcn|exact Hcr| |].
        -- rewrite Hcy, Hrng. unfold y_perm_at. now rewrite rng_before_shift.
        -- exists f', res'. split; [exact Hf'|exact Hfit'].
Qed.

Lemma new_frame_run (m : matrix) (w : world) :
  new_frame m w =
  (Ok (fresh (dom (frames w))),
   with_frames (<[fresh (dom (frames w)) := m]> (frames w)) w).
Proof. unfold new_frame. munfold. repeat mstep. reflexivity. Qed.

Lemma fresh_frame_subseteq (m : matrix) (h : gmap loc (list (list Q))) :
  h ⊆ <[fresh (dom h) := m]> h.
Proof.
  apply insert_subseteq. apply not_elem_of_dom. apply is_fresh.
Qed.

Lemma copy_frame_run (l : loc) (w : world) :
  (m ← read_frame l; new_frame m) w =
  (Ok (fresh (dom (frames w))),
   with_frames (<[fresh (dom (frames w)) := default [] (frames w !! l)]> (frames w)) w).
Proof. munfold. repeat mstep. rewrite new_frame_run. reflexivity. Qed.

Lemma copy_frame_append_run (l : loc) (acc : list loc) (w : world) :
  (m ← read_frame l; l' ← new_frame m; mret (acc ++ [l'])) w =
  (Ok (acc ++ [fresh (dom (frames w))]),
   with_frames (<[fresh (dom (frames w)) := default [] (frames w !! l)]> (frames w)) w).
Proof. munfold. repeat mstep. rewrite new_frame_run. reflexivity. Qed.

(** [deepcopy] only adds blocks to the memory. *)
Lemma deepcopy_loop_run (ls : list loc) :
  forall (acc : list loc) (w : world),
    exists acc' h,
      for_in ls (fun l acc => m ← read_frame l; l' ← new_frame m; mret (acc ++ [l']))
        acc w = (Ok acc', with_frames h w) /\
      frames w ⊆ h /\ length acc' = (length acc + length ls)%nat.
Proof.
  induction ls as [|l ls IH]; intros acc w.
  - exists acc, (frames w). cbn. unfold with_frames. rewrite world_eta.
    split; [reflexivity|]. split; [reflexivity|lia].
  - cbn [for_in]. rewrite bind_run, copy_frame_append_run.
    destruct (IH (acc ++ [fresh (dom (frames w))])
                 (with_frames (<[fresh (dom (frames w)) := default [] (frames w !! l)]>
                                 (frames w)) w))
      as (acc' & h & Hrun & Hsub & Hlen).
    exists acc', h. rewrite Hrun. split; [reflexivity|]. split.
    + etransitivity; [apply fresh_frame_subseteq|exact Hsub].
    + rewrite Hlen, length_app. cbn [length]. lia.
Qed.

Lemma deepcopy_run (x : py_x) (w : world) :
  exists x' h,
    deepcopy x w = (Ok x', with_frames h w) /\ frames w ⊆ h /\
    length (blocks_of x') = length (blocks_of x).
Proof.
  destruct x as [ls|l]; cbn [deepcopy].
  - destruct (deepcopy_loop_run ls [] w) as (acc' & h & Hrun & Hsub & Hlen).
    exists (XList acc'), h. mstep. rewrite Hrun. mstep.
    split; [reflexivity|]. split; [exact Hsub|exact Hlen].
  - change (read_frame l ≫= _) with
      ((m ← read_frame l; new_frame m) ≫= fun l' => mret (XFrame l')).
    rewrite bind_run, copy_frame_run.
    eexists _, _. split; [reflexivity|]. split; [apply fresh_frame_subseteq|reflexivity].
Qed.

(** A run of [mb_vip_permtest] that returns: the model was fitted, the
    loop ran from the world in which only the copies of the blocks were
    added, and the p-values come from the observed and the null scores. *)
Lemma permtest_ok (x : py_x) (y : loc) (n_permutations : nat) (return_scores : bool)
    (w w' : world) (r : list Q * option (list (list npfloat))) :
  mb_vip_permtest x y n_permutations return_scores w = (Ok r, w') ->
  exists f0 h nulls vip_null,
    attrs (self_ w) = Some f0 /\ frames w ⊆ h /\
    for_in (seq 0 n_permutations)
      (fun _ acc => permtest_trial x (default [] (arrays w !! y)) acc) []
      (with_frames h w) = (Ok nulls, w') /\
    empirical_p_values (vip_of f0) nulls n_permutations = Ok (fst r, vip_null) /\
    snd r = if return_scores then Some vip_null else None.
Proof.
  unfold mb_vip_permtest. mstep.
  destruct (attrs (self_ w)) as [f0|] eqn:Eattrs; [|discriminate].
  destruct (deepcopy_run x w) as (x' & h & Hcopy & Hsub & _).
  mstep. rewrite Hcopy. rewrite bind_run.
  destruct (as_block_list x' (with_frames h w)) as [[bl|e] w1] eqn:Ebl;
    [|discriminate].
  assert (w1 = with_frames h w) as ->.
  { destruct x' as [[|l ls]|l]; cbn [as_block_list mret M_ret raise] in Ebl;
      now inversion Ebl. }
  munfold. repeat mstep. cbn [with_frames arrays].
  destruct (check_array (default [] (arrays w !! y))) as [_y|e] eqn:Echeck;
    [|discriminate].
  assert (_y = default [] (arrays w !! y)) as ->.
  { unfold check_array in Echeck. destruct (default [] _); congruence. }
  mstep. rewrite mb_vip_run. cbn [with_frames self_]. rewrite Eattrs.
  mstep.
  destruct (for_in _ _ _ _) as [[nulls|e] w2] eqn:Eloop; [|discriminate].
  mstep.
  destruct (empirical_p_values (vip_of f0) nulls n_permutations)
    as [[p_vals vip_null]|e] eqn:Ep; [|discriminate].
  intros Hret. exists f0, h, nulls, vip_null.
  destruct return_scores; cbn in Hret; injection Hret as <- <-;
    repeat split; auto.
Qed.

(** ** The p-values *)

Lemma omap_lookup_nth {A} (d : A) (f : nat) (arrays : list (list A)) :
  Forall (fun a => (f < length a)%nat) arrays ->
  omap (fun a => a !! f) arrays = map (fun a => nth f a d) arrays.
Proof.
  induction 1 as [|a arrays Ha _ IH]; [reflexivity|].
  cbn [omap list_omap map]. fold (omap (fun a : list A => a !! f) arrays).
  destruct (lookup_lt_is_Some_2 a f Ha) as [v Hv].
  rewrite Hv, IH. f_equal. rewrite nth_lookup, Hv. reflexivity.
Qed.

(** What [np.stack(..., axis=1)] answers: there is an array, all arrays
    have the length of the first, and row [f] collects their cells [f]. *)
Lemma np_stack_axis1_ok {A} (d : A) (arrays m : list (list A)) :
  np_stack_axis1 arrays = Ok m ->
  (1 <= length arrays)%nat /\
  Forall (fun a => length a = length (hd [] arrays)) arrays /\
  m = map (fun f => map (fun a => nth f a d) arrays) (seq 0 (length (hd [] arrays))).
Proof.
  unfold np_stack_axis1. destruct arrays as [|a0 rest]; [discriminate|].
  destruct (forallb _ rest) eqn:E; [|discriminate]. intros [= <-].
  assert (Hall : Forall (fun a => length a = length a0) (a0 :: rest)).
  { constructor; [reflexivity|]. apply Forall_forall. intros a Ha.
    rewrite forallb_forall in E. apply Nat.eqb_eq, E. now apply list_elem_of_In. }
  cbn [hd length]. split; [lia|]. split; [exact Hall|].
  apply map_ext_in. intros f Hf. apply in_seq in Hf.
  apply (omap_lookup_nth d f (a0 :: rest)). eapply Forall_impl; [exact Hall|].
  cbn. intros a ->. lia.
Qed.

Lemma filter_id_map {A} (g : A -> bool) (l : list A) :
  List.filter (fun b : bool => b) (map g l) = map g (List.filter g l).
Proof.
  induction l as [|a l IH]; [reflexivity|]. cbn [map List.filter].
  destruct (g a) eqn:E; cbn [map]; rewrite IH; congruence.
Qed.

Lemma count_row (f : nat) (o : npfloat) (nulls : list (list npfloat)) :
  length (List.filter (fun b : bool => b)
            (map (fun v => np_greater_equal v o) (map (fun a => nth f a NaN) nulls))) =
  count_null_ge f o nulls.
Proof.
  unfold count_null_ge. rewrite map_map, filter_id_map, length_map. reflexivity.
Qed.

Lemma count_null_ge_le (f : nat) (o : npfloat) (nulls : list (list npfloat)) :
  (count_null_ge f o nulls <= length nulls)%nat.
Proof. unfold count_null_ge. apply List.filter_length_le. Qed.

Lemma zip_with_map_seq {A B C} (h : A -> B -> C) (r : nat -> A) (d : B)
    (obs : list B) (s : nat) :
  zip_with h (map r (seq s (length obs))) obs =
  map (fun f => h (r f) (nth (f - s) obs d)) (seq s (length obs)).
Proof.
  revert s. induction obs as [|o obs IH]; intros s; [reflexivity|].
  cbn [length seq map zip_with]. rewrite Nat.sub_diag. cbn [nth]. f_equal.
  rewrite IH. apply map_ext_in. intros f Hf. apply in_seq in Hf.
  replace (f - s)%nat with (S (f - S s)) by lia. reflexivity.
Qed.

(** The p-value of every feature, when the null score vectors have one
    cell per observed feature. *)
Lemma empirical_p_values_formula (obs : list npfloat) (nulls : list (list npfloat))
    (M : nat) (ps : list Q) (stacked : list (list npfloat)) :
  empirical_p_values obs nulls M = Ok (ps, stacked) ->
  length (hd [] nulls) = length obs ->
  ps = map (fun f => inject_Z (Z.of_nat (count_null_ge f (nth f obs NaN) nulls))
                     / inject_Z (Z.of_nat M))
           (seq 0 (length obs)).
Proof.
  unfold empirical_p_values. intros H Hlen.
  destruct (np_stack_axis1 nulls) as [m|e] eqn:Estack; [|discriminate].
  apply (np_stack_axis1_ok NaN) in Estack as (_ & _ & ->).
  rewrite Hlen in H. unfold np_greater_equal_column in H.
  rewrite length_map, length_seq, Nat.eqb_refl in H.
  injection H as <- _.
  rewrite (zip_with_map_seq _ _ NaN). unfold np_count_axis1. rewrite !map_map.
  apply map_ext. intros f. rewrite Nat.sub_0_r, count_row. reflexivity.
Qed.

(** Every p-value is a count of trials over [n_permutations], whatever the
    shapes. *)
Lemma empirical_p_values_counts (obs : list npfloat) (nulls : list (list npfloat))
    (M : nat) (ps : list Q) (stacked : list (list npfloat)) :
  empirical_p_values obs nulls M = Ok (ps, stacked) ->
  (1 <= length nulls)%nat /\
  Forall (fun p => exists c, (c <= length nulls)%nat /\
                     p = inject_Z (Z.of_nat c) / inject_Z (Z.of_nat M)) ps.
Proof.
  unfold empirical_p_values. intros H.
  destruct (np_stack_axis1 nulls) as [m|e] eqn:Estack; [|discriminate].
  apply (np_stack_axis1_ok NaN) in Estack as (Hne & _ & ->).
  split; [exact Hne|].
  destruct (np_greater_equal_column _ obs) as [mask|e] eqn:Emask; [|discriminate].
  injection H as <- _.
  assert (Hrows : Forall (fun row : list bool => length row = length nulls) mask).
  { set (rows := map _ (seq 0 _)) in Emask.
    assert (Hstacked : Forall (fun row : list npfloat => length row = length nulls) rows).
    { apply Forall_forall. intros row Hrow. apply list_elem_of_In, in_map_iff in Hrow
        as (f & <- & _). apply length_map. }
    clearbody rows. unfold np_greater_equal_column in Emask.
    destruct (length rows =? length obs)%nat.
    - injection Emask as <-. clear -Hstacked. revert obs.
      induction Hstacked as [|row rows Hrow _ IH]; intros [|o obs]; cbn; try constructor.
      + now rewrite length_map.
      + apply IH.
    - destruct obs as [|o [|o' obs]].
      + destruct rows as [|row [|row' rows]]; try discriminate.
        injection Emask as <-. constructor.
      + injection Emask as <-. apply Forall_forall. intros row Hrow.
        apply list_elem_of_In, in_map_iff in Hrow as (r & <- & Hr).
        rewrite length_map. rewrite Forall_forall in Hstacked.
        apply Hstacked. now apply list_elem_of_In.
      + destruct rows as [|row [|row' rows]]; try discriminate.
        injection Emask as <-.
        change (Forall (fun r : list bool => length r = length nulls)
                  (map (fun o => map (fun v => np_greater_equal v o) row) (o :: o' :: obs))).
        apply List.Forall_map, Forall_forall. intros o'' _.
        rewrite length_map. now inversion Hstacked. }
  unfold np_count_axis1. rewrite map_map. apply Forall_forall. intros p Hp.
  apply list_elem_of_In, in_map_iff in Hp as (row & <- & Hrow).
  exists (length (List.filter (fun b : bool => b) row)). split; [|reflexivity].
  rewrite Forall_forall in Hrows. rewrite <- (Hrows row) by now apply list_elem_of_In.
  apply List.filter_length_le.
Qed.

Lemma ratio_bounds (c M : nat) :
  (c <= M)%nat -> (1 <= M)%nat ->
  0 <= inject_Z (Z.of_nat c) / inject_Z (Z.of_nat M) <= 1.
Proof.
  intros Hc HM.
  assert (HMpos : 0 < inject_Z (Z.of_nat M)).
  { change 0 with (inject_Z 0). rewrite <- Zlt_Qlt. lia. }
  split.
  - apply Qle_shift_div_l; [exact HMpos|]. rewrite Qmult_0_l.
    change 0 with (inject_Z 0). rewrite <- Zle_Qle. lia.
  - apply Qle_shift_div_r; [exact HMpos|]. rewrite Qmult_1_l.
    rewrite <- Zle_Qle. lia.
Qed.

(** ** The permutation test *)

(** A run of [mb_vip_permtest] that returns, in terms of its trials. *)
Lemma permtest_trials (x : py_x) (y : loc) (n_permutations : nat) (return_scores : bool)
    (w w' : world) (r : list Q * option (list (list npfloat))) :
  mb_vip_permtest x y n_permutations return_scores w = (Ok r, w') ->
  exists f_obs nulls vip_null,
    attrs (self_ w) = Some f_obs /\
    null_trials x (default [] (arrays w !! y)) w w' nulls /\
    length nulls = n_permutations /\
    empirical_p_values (vip_of f_obs) nulls n_permutations = Ok (fst r, vip_null) /\
    snd r = (if return_scores then Some vip_null else None) /\
    n_components (self_ w') = n_components (self_ w) /\
    copy (self_ w') = copy (self_ w) /\
    arrays w' = arrays w /\ stdout w' = stdout w /\
    (forall f, last (fit_log w') = Some f -> (1 <= n_permutations)%nat ->
       exists fitted residue,
         engine_fit (call_n f) (call_X f) (call_y f) = Some (fitted, residue) /\
         attrs (self_ w') = Some fitted) /\
    (copy (self_ w) = true -> forall l, is_Some (frames w !! l) ->
       frames w' !! l = frames w !! l).
Proof.
  intros H. apply permtest_ok in H as (f0 & h & nulls & vip_null & Hattrs & Hsub & Hloop & Hp & Hr).
  apply permtest_loop_ok in Hloop
    as (calls & fs & Hlc & Hlf & Hnulls & Hlog & Hn & Hcopy & Hlast & Harr & Hout
        & _ & _ & Hfr & Hcalls).
  cbn [app] in Hnulls. cbn [with_frames fit_log self_ arrays stdout rng frames] in *.
  rewrite length_seq in Hlc, Hlf.
  exists f0, nulls, vip_null. split; [exact Hattrs|]. split.
  { exists calls, fs. split; [exact Hlog|]. split.
    - rewrite Hnulls, length_map. lia.
    - split; [exact Hnulls|exact Hcalls]. }
  split; [rewrite Hnulls, length_map; exact Hlf|].
  split; [exact Hp|]. split; [exact Hr|]. split; [exact Hn|]. split; [exact Hcopy|].
  split; [exact Harr|]. split; [exact Hout|]. split.
  - intros c Hc Hpos. rewrite Hlog in Hc.
    destruct (last calls) as [c'|] eqn:Elast.
    + rewrite last_app, Elast in Hc. injection Hc as <-.
      rewrite last_lookup in Elast.
      destruct (Hcalls _ _ Elast) as (_ & _ & _ & f & residue & Hf & Hfit).
      exists f, residue. split; [exact Hfit|].
      rewrite Hlast. rewrite last_lookup.
      replace (Init.Nat.pred (length fs)) with (Init.Nat.pred (length calls)) by lia.
      now rewrite Hf.
    + apply last_None in Elast. subst calls. cbn in Hlc. lia.
  - intros Hc l [m Hl]. rewrite (Hfr Hc).
    rewrite Hl. eapply lookup_weaken; [exact Hl|exact Hsub].
Qed.
Lemma np_greater_not_ge (a b : npfloat) :
  np_greater a b = true -> np_greater_equal b a = false.
Proof.
  destruct a as [x| | |], b as [y| | |]; cbn; try discriminate; try reflexivity.
  unfold Qltb. intros H. now apply negb_true_iff in H.
Qed.

Lemma count_null_ge_zero (feat : nat) (o : npfloat) (nulls : list (list npfloat)) :
  (forall v, In v nulls -> np_greater o (nth feat v NaN) = true) ->
  count_null_ge feat o nulls = 0%nat.
Proof.
  unfold count_null_ge. induction nulls as [|v nulls IH]; intros H; [reflexivity|].
  cbn [List.filter]. rewrite (np_greater_not_ge _ _ (H v (or_introl eq_refl))).
  apply IH. intros v' Hv'. apply H. now right.
Qed.

Lemma spec_p_values_nth (vip_obs : list npfloat) (nulls : list (list npfloat))
    (M feat : nat) :
  (feat < length vip_obs)%nat ->
  nth feat (spec_p_values vip_obs nulls M) 0 =
  inject_Z (Z.of_nat (count_null_ge feat (nth feat vip_obs NaN) nulls))
  / inject_Z (Z.of_nat M).
Proof.
  intros Hf. unfold spec_p_values.
  set (g := fun feat : nat => _ / _).
  rewrite (nth_indep _ 0 (g 0%nat)) by (rewrite length_map, length_seq; exact Hf).
  rewrite map_nth, seq_nth by exact Hf. reflexivity.
Qed.

(** C4. When [mb_vip_permtest] returns, the p-value of every feature is
    the number of null trials whose MB-VIP score at the feature is at least
    the observed score, divided by [n_permutations]; it is 0 for a feature
    whose observed score is above all the null scores. *)
Theorem permtest_p_values_are_null_fractions
    (x : py_x) (y : loc) (n_permutations : nat) (return_scores : bool)
    (w w' : world) (p_vals : list Q) (scores : option (list (list npfloat))) :
  mb_vip_permtest x y n_permutations return_scores w = (Ok (p_vals, scores), w') ->
  exists f_obs nulls,
    attrs (self_ w) = Some f_obs /\
    null_trials x (default [] (arrays w !! y)) w w' nulls /\
    length nulls = n_permutations /\
    (length (hd [] nulls) = length (vip_of f_obs) ->
     p_vals = spec_p_values (vip_of f_obs) nulls n_permutations /\
     forall feat, (feat < length (vip_of f_obs))%nat ->
       (forall v, In v nulls ->
          np_greater (nth feat (vip_of f_obs) NaN) (nth feat v NaN) = true) ->
       nth feat p_vals 0 == 0).
Proof.
  intros H. apply permtest_trials in H
    as (f_obs & nulls & vip_null & Hattrs & Htrials & Hlen & Hp & _).
  cbn [fst] in Hp. exists f_obs, nulls.
  split; [exact Hattrs|]. split; [exact Htrials|]. split; [exact Hlen|].
  intros Hshape. apply empirical_p_values_formula in Hp; [|exact Hshape].
  fold (spec_p_values (vip_of f_obs) nulls n_permutations) in Hp.
  split; [exact Hp|]. intros feat Hfeat Habove.
  rewrite Hp, spec_p_values_nth by exact Hfeat.
  rewrite (count_null_ge_zero _ _ _ Habove). unfold Qdiv. apply Qmult_0_l.
Qed.

(** C5, amended. When [mb_vip_permtest] returns, every p-value is a whole
    number of trials between 0 and [n_permutations], divided by
    [n_permutations]: it lies in the interval from 0 to 1. *)
Theorem permtest_p_values_in_unit_interval
    (x : py_x) (y : loc) (n_permutations : nat) (return_scores : bool)
    (w w' : world) (p_vals : list Q) (scores : option (list (list npfloat))) :
  mb_vip_permtest x y n_permutations return_scores w = (Ok (p_vals, scores), w') ->
  Forall (fun p => 0 <= p <= 1 /\
                   exists c : nat, (c <= n_permutations)%nat /\
                     p = inject_Z (Z.of_nat c) / inject_Z (Z.of_nat n_permutations))
         p_vals.
Proof.
  intros H. apply permtest_trials in H
    as (f_obs & nulls & vip_null & _ & _ & Hlen & Hp & _).
  cbn [fst] in Hp. apply empirical_p_values_counts in Hp as [Hpos Hall].
  rewrite Hlen in Hpos, Hall.
  eapply Forall_impl; [exact Hall|]. cbn beta.
  intros p (c & Hc & ->). split; [now apply ratio_bounds|].
  exists c. split; [exact Hc|reflexivity].
Qed.

(** C10. When [mb_vip_permtest] returns after at least one trial, the
    last call of the engine was the fit of the last trial, on the shuffled
    response of that trial, and the learned attributes on return are the
    ones of that fit: the model fitted on entry is gone. *)
Theorem permtest_leaves_last_null_model
    (x : py_x) (y : loc) (n_permutations : nat) (return_scores : bool)
    (w w' : world) (r : list Q * option (list (list npfloat))) :
  mb_vip_permtest x y n_permutations return_scores w = (Ok r, w') ->
  (1 <= n_permutations)%nat ->
  exists c fitted residue,
    last (fit_log w') = Some c /\
    call_refs c = Some (blocks_of x) /\
    call_n c = n_components (self_ w) /\
    call_y c = y_perm_at (rng w) (default [] (arrays w !! y)) (n_permutations - 1) /\
    engine_fit (call_n c) (call_X c) (call_y c) = Some (fitted, residue) /\
    self_ w' = {| n_components := n_components (self_ w); copy := copy (self_ w);
                  attrs := Some fitted |}.
Proof.
  intros H Hpos. apply permtest_trials in H
    as (f_obs & nulls & vip_null & _ & Htrials & Hlen & _ & _ & Hn & Hcopy & _ & _
        & Hlast & _).
  destruct Htrials as (calls & fs & Hlog & Hlc & _ & Hcalls).
  destruct (last calls) as [c|] eqn:Elast.
  - assert (Hc : last (fit_log w') = Some c) by (rewrite Hlog, last_app, Elast; reflexivity).
    destruct (Hlast c Hc Hpos) as (fitted & residue & Hfit & Hattrs).
    rewrite last_lookup in Elast.
    destruct (Hcalls _ _ Elast) as (Hcn & Hcr & Hcy & _).
    exists c, fitted, residue. split; [exact Hc|]. split; [exact Hcr|].
    split; [exact Hcn|]. split.
    + rewrite Hcy. f_equal. lia.
    + split; [exact Hfit|]. destruct (self_ w'). cbn in *. congruence.
  - apply last_None in Elast. subst calls. cbn in Hlc. lia.
Qed.

(** The engine is given the caller's own blocks in every trial, never the
    deep copy; the response in memory is left alone, and so are the blocks
    when the model deflates on a copy. *)
Lemma permtest_fits_on_caller_blocks
    (x : py_x) (y : loc) (n_permutations : nat) (return_scores : bool)
    (w w' : world) (r : list Q * option (list (list npfloat))) :
  mb_vip_permtest x y n_permutations return_scores w = (Ok r, w') ->
  (exists calls, fit_log w' = fit_log w ++ calls /\ length calls = n_permutations /\
     Forall (fun c => call_refs c = Some (blocks_of x)) calls) /\
  arrays w' = arrays w /\
  (copy (self_ w) = true -> forall l, is_Some (frames w !! l) ->
     frames w' !! l = frames w !! l).
Proof.
  intros H. apply permtest_trials in H
    as (f_obs & nulls & vip_null & _ & Htrials & Hlen & _ & _ & _ & _ & Harr & _ & _ & Hfr).
  destruct Htrials as (calls & fs & Hlog & Hlc & _ & Hcalls).
  split; [|split; [exact Harr|exact Hfr]].
  exists calls. split; [exact Hlog|]. split; [lia|].
  apply Forall_lookup. intros k c Hk. now destruct (Hcalls k c Hk) as (_ & Hr & _).
Qed.

(** ** MB-VIP *)

Lemma Qsquare_opp (w : Q) : (- w) ^ 2 = w ^ 2.
Proof.
  destruct w as [n d]. unfold Qpower, Qpower_positive, pow_pos, Qopp, Qmult.
  cbn [Pos.iter_op Qnum Qden]. f_equal. lia.
Qed.

Lemma np_square_opp (m : matrix) : np_square (map (map Qopp) m) = np_square m.
Proof.
  unfold np_square. rewrite map_map. apply map_ext. intros row.
  rewrite map_map. apply map_ext. intros w. apply Qsquare_opp.
Qed.

Lemma np_vstack_opp (W : list matrix) :
  np_vstack (map (map (map Qopp)) W) = map (map Qopp) (np_vstack W).
Proof. unfold np_vstack. symmetry. apply concat_map. Qed.

(** C8. The MB-VIP scores do not change when all block weight matrices
    are multiplied by -1, the super-scores and y-loadings being the same:
    a weight is only used squared. *)
Theorem mb_vip_invariant_under_weight_negation :
  (forall f : Fitted, vip_of (negate_W f) = vip_of f) /\
  forall (plot : bool) (w : world),
    fst (mb_vip plot (negate_weights w)) = fst (mb_vip plot w).
Proof.
  assert (Hvip : forall f : Fitted, vip_of (negate_W f) = vip_of f).
  { intros f. unfold vip_of, negate_W. cbn [W_ P_ Ts_ V_].
    rewrite np_vstack_opp, np_square_opp. reflexivity. }
  split; [exact Hvip|]. intros plot w. rewrite !mb_vip_run.
  unfold negate_weights. cbn [with_self self_ attrs].
  destruct (attrs (self_ w)) as [f|]; cbn [fmap option_fmap option_map fst];
    [|reflexivity].
  f_equal. apply Hvip.
Qed.

(** ** Latent-variable estimation *)

(** The count [select_and_refit] settles on, and what it prints. *)
Lemma select_and_refit_spec (x : py_x) (y : loc) (metric : string) (data : list Q)
    (plateau_threshold increase_threshold : Q) (w : world) :
  match bend_of data increase_threshold with
  | Raise e =>
      select_and_refit x y metric data plateau_threshold increase_threshold w
      = (Raise e, w)
  | Ok bend =>
      let plateau := _find_plateau data plateau_threshold 3 in
      let selected := match plateau with Some (start, _) => start | None => bend end in
      let said := match plateau with
                  | Some (start, _) =>
                      [MsgBend metric (increase_threshold * 100) bend;
                       MsgPlateau metric start]
                  | None =>
                      [MsgBend metric (increase_threshold * 100) bend; MsgNoPlateau]
                  end in
      match engine_fit selected (frames_of x w) (default [] (arrays w !! y)) with
      | None =>
          exists w',
            select_and_refit x y metric data plateau_threshold increase_threshold w
            = (Raise EngineError, w') /\
            fit_log w' = fit_log w /\ attrs (self_ w') = attrs (self_ w)
      | Some (f, residue) =>
          exists w',
            select_and_refit x y metric data plateau_threshold increase_threshold w
            = (Ok tt, w') /\
            self_ w' = {| n_components := selected; copy := copy (self_ w);
                          attrs := Some f |} /\
            fit_log w' = fit_log w ++
              [{| call_n := selected; call_refs := Some (blocks_of x);
                  call_X := frames_of x w; call_y := default [] (arrays w !! y) |}] /\
            stdout w' = stdout w ++ said ++ [MsgRefitted selected]
      end
  end.
Proof.
  unfold select_and_refit. rewrite bind_run. cbn [lift].
  destruct (bend_of data increase_threshold) as [bend|e]; [|reflexivity].
  cbv zeta. unfold try_except_TypeError.
  destruct (_find_plateau data plateau_threshold 3) as [[start e]|];
    cbn [fmap option_fmap option_map fst plt_axvline]; munfold; repeat mstep.
  - match goal with |- context [self_fit x y ?W] => set (w1 := W) end.
    rewrite self_fit_run. cbv zeta.
    change (frames_of x w1) with (frames_of x w).
    change (arrays w1) with (arrays w).
    change (n_components (self_ w1)) with start.
    change (copy (self_ w1)) with (copy (self_ w)).
    destruct (engine_fit start (frames_of x w) _) as [[f residue]|].
    + repeat mstep. eexists. split; [reflexivity|].
      destruct (copy (self_ w)) eqn:Ecopy; cbn; rewrite ?Ecopy, <- ?app_assoc;
        repeat split; reflexivity.
    + eexists. split; [reflexivity|]. split; reflexivity.
  - match goal with |- context [self_fit x y ?W] => set (w1 := W) end.
    rewrite self_fit_run. cbv zeta.
    change (frames_of x w1) with (frames_of x w).
    change (arrays w1) with (arrays w).
    change (n_components (self_ w1)) with bend.
    change (copy (self_ w1)) with (copy (self_ w)).
    destruct (engine_fit bend (frames_of x w) _) as [[f residue]|].
    + repeat mstep. eexists. split; [reflexivity|].
      destruct (copy (self_ w)) eqn:Ecopy; cbn; rewrite ?Ecopy, <- ?app_assoc;
        repeat split; reflexivity.
    + eexists. split; [reflexivity|]. split; reflexivity.
Qed.

(** [estimate_lv] after the curves are built. *)
Lemma estimate_lv_after_curves (x : py_x) (y : loc) (n no_fold : nat)
    (y_continuous : bool) (metric : string) (plateau_threshold increase_threshold : Q)
    (get_scores : bool) (w w1 : world) (metric' : string) (env : gmap string (list Q)) :
  cross_validate x y n no_fold y_continuous metric w = (Ok (metric', env), w1) ->
  estimate_lv x y n no_fold y_continuous metric plateau_threshold increase_threshold
    get_scores w =
  match select_and_refit x y metric' (select_metric metric' env)
          plateau_threshold increase_threshold w1 with
  | (Ok _, w') =>
      (Ok (if get_scores then Some (make_perf_scores y_continuous n env) else None), w')
  | (Raise e, w') => (Raise e, w')
  end.
Proof.
  intros H. unfold estimate_lv. rewrite bind_run, H. cbv zeta. rewrite bind_run.
  destruct (select_and_refit _ _ _ _ _ _ w1) as [[[]|e] w']; [|reflexivity].
  destruct get_scores; reflexivity.
Qed.

(** C3, amended. Once the curves are built, [estimate_lv] returns exactly
    when the bend exists and the engine fits the full data at the selected count:
    the start of the plateau when one is found, else the bend, then with
    the advice to explore more latent variables printed.  On return the
    model holds that count and the attributes of that fit. *)
Theorem estimate_lv_selects_count_and_refits
    (x : py_x) (y : loc) (n no_fold : nat) (y_continuous : bool) (metric : string)
    (plateau_threshold increase_threshold : Q) (get_scores : bool)
    (w w1 : world) (metric' : string) (env : gmap string (list Q)) :
  cross_validate x y n no_fold y_continuous metric w = (Ok (metric', env), w1) ->
  let data := select_metric metric' env in
  let run := estimate_lv x y n no_fold y_continuous metric plateau_threshold
               increase_threshold get_scores w in
  (forall bend f residue,
     bend_of data increase_threshold = Ok bend ->
     engine_fit (selected_count data plateau_threshold bend) (frames_of x w1)
       (default [] (arrays w1 !! y)) = Some (f, residue) ->
     exists w',
       run = (Ok (if get_scores then Some (make_perf_scores y_continuous n env)
                  else None), w') /\
       refitted_at_selection x y metric' data plateau_threshold increase_threshold
         bend f w1 w') /\
  (forall r w',
     run = (Ok r, w') ->
     exists bend f residue,
       bend_of data increase_threshold = Ok bend /\
       engine_fit (selected_count data plateau_threshold bend) (frames_of x w1)
         (default [] (arrays w1 !! y)) = Some (f, residue) /\
       refitted_at_selection x y metric' data plateau_threshold increase_threshold
         bend f w1 w').
Proof.
  intros Hcv data run. subst run.
  rewrite (estimate_lv_after_curves _ _ _ _ _ _ plateau_threshold increase_threshold
             get_scores _ _ _ _ Hcv).
  fold data.
  pose proof (select_and_refit_spec x y metric' data plateau_threshold
                increase_threshold w1) as Hspec.
  unfold refitted_at_selection, selected_count, selection_messages.
  split.
  - intros bend f residue Hbend Hfit. rewrite Hbend in Hspec. cbv zeta in Hspec.
    unfold selected_count in Hfit. rewrite Hfit in Hspec.
    destruct Hspec as (w' & Hrun & Hself & Hlog & Hout).
    exists w'. rewrite Hrun. split; [reflexivity|].
    split; [exact Hself|]. split; [exact Hlog|].
    rewrite Hout. destruct (_find_plateau data plateau_threshold 3) as [[s e]|];
      reflexivity.
  - intros r w' Hrun.
    destruct (bend_of data increase_threshold) as [bend|e].
    + cbv zeta in Hspec. exists bend.
      destruct (engine_fit _ (frames_of x w1) _) as [[f residue]|].
      * destruct Hspec as (w'' & Hrun' & Hself & Hlog & Hout).
        rewrite Hrun' in Hrun. injection Hrun as _ <-.
        exists f, residue. split; [reflexivity|]. split; [reflexivity|].
        split; [exact Hself|]. split; [exact Hlog|].
        rewrite Hout. destruct (_find_plateau data plateau_threshold 3) as [[s e]|];
          reflexivity.
      * destruct Hspec as (w'' & Hrun' & _). rewrite Hrun' in Hrun. discriminate.
    + rewrite Hspec in Hrun. discriminate.
Qed.

(** C9. When no successive difference of the curve, divided by its first
    score, is below [increase_threshold], [estimate_lv] raises while it
    computes the bend (the minimum of no index is a ValueError; with no
    score at all the first score is an IndexError): nothing is selected
    and nothing is refitted. *)
Theorem estimate_lv_raises_without_bend
    (x : py_x) (y : loc) (n no_fold : nat) (y_continuous : bool) (metric : string)
    (plateau_threshold increase_threshold : Q) (get_scores : bool)
    (w w1 : world) (metric' : string) (env : gmap string (list Q)) :
  cross_validate x y n no_fold y_continuous metric w = (Ok (metric', env), w1) ->
  (forall k, (S k < length (select_metric metric' env))%nat ->
     bend_below (select_metric metric' env) increase_threshold k = false) ->
  estimate_lv x y n no_fold y_continuous metric plateau_threshold increase_threshold
    get_scores w =
  (Raise (match select_metric metric' env with [] => IndexError | _ => ValueError end),
   w1).
Proof.
  intros Hcv Hnone.
  rewrite (estimate_lv_after_curves _ _ _ _ _ _ plateau_threshold increase_threshold
             get_scores _ _ _ _ Hcv).
  pose proof (select_and_refit_spec x y metric' (select_metric metric' env)
                plateau_threshold increase_threshold w1) as Hspec.
  rewrite (bend_of_raise _ _ Hnone) in Hspec. rewrite Hspec. reflexivity.
Qed.

(** A metric that the validation refuses stops [cross_validate] before
    the engine is called and before anything is printed. *)
Lemma cross_validate_refuses (x : py_x) (y : loc) (n no_fold : nat)
    (y_continuous : bool) (metric : string) (w : world) :
  x <> XList [] ->
  validate_metric y_continuous metric = Raise ValueError ->
  exists w',
    cross_validate x y n no_fold y_continuous metric w = (Raise ValueError, w') /\
    self_ w' = self_ w /\ fit_log w' = fit_log w /\ stdout w' = stdout w /\
    figure w' = figure w /\ arrays w' = arrays w.
Proof.
  intros Hx Hmetric. unfold cross_validate. rewrite bind_run.
  assert (Hcopy : exists x' h, copy_x x w = (Ok x', with_frames h w) /\ x' <> XList []).
  { destruct x as [ls|l]; cbn [copy_x].
    - exists (XList ls), (frames w). unfold with_frames. rewrite world_eta.
      split; [reflexivity|exact Hx].
    - change (read_frame l ≫= _) with
        ((m ← read_frame l; new_frame m) ≫= fun l' => mret (XFrame l')).
      rewrite bind_run, copy_frame_run. eexists _, _. split; [reflexivity|discriminate]. }
  destruct Hcopy as (x' & h & -> & Hx'). rewrite bind_run.
  assert (Hbl : exists bl, as_block_list x' (with_frames h w) = (Ok bl, with_frames h w)).
  { destruct x' as [[|l ls]|l]; [contradiction| |]; eexists; reflexivity. }
  destruct Hbl as (bl & ->). munfold. repeat mstep.
  destruct (check_array _) as [_y|e] eqn:Echeck.
  - mstep. rewrite Hmetric. eexists. split; [reflexivity|]. repeat split.
  - assert (e = ValueError) as ->.
    { unfold check_array in Echeck. destruct (default [] _); congruence. }
    eexists. split; [reflexivity|]. repeat split.
Qed.

(** C7, amended. For a categorical outcome, a metric that is not one of
    'auc', 'precision', 'recall', 'f1', 'accuracy' makes [estimate_lv]
    raise ValueError before the engine is called, with the model left as
    it was; for a continuous outcome the metric in use is 'q2' whatever
    was asked, and the validation raises nothing. *)
Theorem estimate_lv_refuses_categorical_metric
    (x : py_x) (y : loc) (n no_fold : nat) (metric : string)
    (plateau_threshold increase_threshold : Q) (get_scores : bool) (w : world) :
  x <> XList [] ->
  str_in metric (allowed_metrics false) = false ->
  (exists w',
     estimate_lv x y n no_fold false metric plateau_threshold increase_threshold
       get_scores w = (Raise ValueError, w') /\
     self_ w' = self_ w /\ fit_log w' = fit_log w /\ stdout w' = stdout w) /\
  validate_metric true metric = Ok "q2"%string.
Proof.
  intros Hx Hmetric. split; [|reflexivity].
  assert (Hval : validate_metric false metric = Raise ValueError).
  { unfold validate_metric. cbv zeta. unfold allowed_metrics in Hmetric.
    rewrite Hmetric. reflexivity. }
  destruct (cross_validate_refuses x y n no_fold false metric w Hx Hval)
    as (w' & Hrun & Hself & Hlog & Hout & _).
  exists w'. unfold estimate_lv. rewrite bind_run, Hrun.
  repeat split; assumption.
Qed.

(** ** Further properties of the plateau scan *)

(** X1. [_find_plateau] answers a pair exactly when the pair is the first
    plateau window among those that end before the last score: the start
    is a component count from 1, the end is [consecutive_elements - 1]
    further, every adjacent pair of the window is within the threshold,
    and no window that starts earlier is a plateau. *)
Theorem find_plateau_characterized (scores : list Q) (thr : Q) (c s e : nat) :
  _find_plateau scores thr c = Some (s, e) <->
  e = (s + c - 1)%nat /\ (s + c <= length scores)%nat /\
  is_plateau scores thr c s /\
  forall s', (1 <= s' < s)%nat -> ~ is_plateau scores thr c s'.
Proof.
  split; [apply find_plateau_sound|].
  intros (-> & Hlen & Hp & Hfirst).
  destruct (find_plateau_complete scores thr c s Hp Hlen) as (s' & e' & Hfound & Hle).
  pose proof (find_plateau_sound _ _ _ _ _ Hfound) as (-> & _ & Hp' & _).
  destruct (Nat.eq_dec s' s) as [->|Hne]; [exact Hfound|].
  exfalso. apply (Hfirst s'); [|exact Hp'].
  destruct Hp' as (Hs' & _). lia.
Qed.

Lemma plateau_inner_ext (l1 l2 : list Q) (thr : Q) (i : nat) (js : list nat) :
  (forall j, In j js ->
     nth (i + j) l1 0 = nth (i + j) l2 0 /\
     nth (i + j - 1) l1 0 = nth (i + j - 1) l2 0) ->
  plateau_inner l1 thr i js = plateau_inner l2 thr i js.
Proof.
  induction js as [|j js IH]; intros H; cbn [plateau_inner]; [reflexivity|].
  destruct (H j (or_introl eq_refl)) as [-> ->].
  rewrite IH; [reflexivity|]. intros j' Hj'. apply H. now right.
Qed.

Lemma plateau_outer_ext (l1 l2 : list Q) (thr : Q) (c : nat) (range_ : list nat) :
  (forall i, In i range_ ->
     plateau_inner l1 thr i (seq 0 (c - 1)) = plateau_inner l2 thr i (seq 0 (c - 1))) ->
  plateau_outer l1 thr c range_ = plateau_outer l2 thr c range_.
Proof.
  induction range_ as [|i rest IH]; intros H; cbn [plateau_outer]; [reflexivity|].
  rewrite (H i (or_introl eq_refl)).
  rewrite IH; [reflexivity|]. intros i' Hi'. apply H. now right.
Qed.

(** X2. The last score of the curve is never read: replacing it by any
    other value leaves the answer of [_find_plateau] as it was. *)
Theorem find_plateau_ignores_last_score (scores : list Q) (a b thr : Q) (c : nat) :
  _find_plateau (scores ++ [a]) thr c = _find_plateau (scores ++ [b]) thr c.
Proof.
  unfold _find_plateau. rewrite !length_app. cbn [length].
  apply plateau_outer_ext. intros i Hi. apply in_seq in Hi.
  apply plateau_inner_ext. intros j Hj. apply in_seq in Hj.
  split; rewrite !app_nth1 by lia; reflexivity.
Qed.

(** X3. A larger threshold never loses or delays the plateau: when a
    plateau is found with a threshold, one is found with every larger
    threshold, and it starts no later. *)
Theorem find_plateau_monotone_in_threshold (scores : list Q) (thr thr' : Q)
    (c s e : nat) :
  thr <= thr' ->
  _find_plateau scores thr c = Some (s, e) ->
  exists s' e', _find_plateau scores thr' c = Some (s', e') /\ (s' <= s)%nat.
Proof.
  intros Hthr H. apply find_plateau_sound in H as (_ & Hlen & (Hs & Hend & Hflat) & _).
  apply (find_plateau_complete scores thr' c s); [|exact Hlen].
  split; [exact Hs|]. split; [exact Hend|].
  intros k Hk. eapply Qle_trans; [apply Hflat; exact Hk|exact Hthr].
Qed.

(** ** Further properties of the bend *)

Lemma Qltb_lt (a b : Q) : Qltb a b = true <-> a < b.
Proof.
  unfold Qltb. rewrite negb_true_iff. split.
  - intros H. apply Qnot_le_lt. intros Hle. apply Qle_bool_iff in Hle. congruence.
  - intros H. destruct (Qle_bool b a) eqn:E; [|reflexivity].
    apply Qle_bool_iff in E. exfalso. apply (Qlt_not_le _ _ H E).
Qed.

Lemma np_true_divide_finite (d s : Q) :
  ~ s == 0 -> np_true_divide d s = Finite (d / s).
Proof.
  intros Hs. unfold np_true_divide.
  destruct (Qeq_bool s 0) eqn:E; [|reflexivity].
  apply Qeq_bool_iff in E. contradiction.
Qed.

(** X4. With a positive first score and a positive threshold, a curve
    that does not rise from its first to its second score has its bend at
    1. *)
Theorem bend_is_one_when_first_step_does_not_rise (s0 s1 : Q) (rest : list Q)
    (increase_threshold : Q) :
  0 < s0 -> 0 < increase_threshold -> s1 <= s0 ->
  bend_of (s0 :: s1 :: rest) increase_threshold = Ok 1%nat.
Proof.
  intros Hs0 Hthr Hstep. apply bend_of_ok. cbn [length].
  split; [lia|]. split; [|intros k Hk; lia].
  unfold bend_below. cbn [nth Nat.sub].
  rewrite np_true_divide_finite by (intros H0; rewrite H0 in Hs0; now apply Qlt_irrefl in Hs0).
  cbn [np_less]. apply Qltb_lt.
  eapply Qle_lt_trans; [|exact Hthr].
  apply Qle_shift_div_r; [exact Hs0|]. rewrite Qmult_0_l.
  apply (Qplus_le_l _ _ s0). ring_simplify. exact Hstep.
Qed.

(** X6. With a negative first score (a q2 below zero for one component),
    the division by the first score turns every rise into a negative
    quotient: a curve that does not fall from its first to its second score
    has its bend at 1, whatever follows. *)
Theorem bend_is_one_when_first_score_negative (s0 s1 : Q) (rest : list Q)
    (increase_threshold : Q) :
  s0 < 0 -> 0 < increase_threshold -> s0 <= s1 ->
  bend_of (s0 :: s1 :: rest) increase_threshold = Ok 1%nat.
Proof.
  intros Hs0 Hthr Hstep. apply bend_of_ok. cbn [length].
  split; [lia|]. split; [|intros k Hk; lia].
  unfold bend_below. cbn [nth Nat.sub].
  rewrite np_true_divide_finite by (intros H0; rewrite H0 in Hs0; now apply Qlt_irrefl in Hs0).
  cbn [np_less]. apply Qltb_lt.
  eapply Qle_lt_trans; [|exact Hthr].
  assert (Hneg : 0 < - s0) by (apply (Qplus_lt_l _ _ s0); ring_simplify; exact Hs0).
  assert (Heq : (s1 - s0) / s0 == (s0 - s1) / - s0)
    by (field; intros H0; rewrite H0 in Hs0; now apply Qlt_irrefl in Hs0).
  rewrite Heq.
  apply Qle_shift_div_r; [exact Hneg|]. rewrite Qmult_0_l.
  apply (Qplus_le_l _ _ s1). ring_simplify. exact Hstep.
Qed.

(** ** Further properties of MB-VIP *)

Lemma np_sum_axis1_length (m : matrix) : length (np_sum_axis1 m) = length m.
Proof. unfold np_sum_axis1. apply length_map. Qed.

(** X7. [mb_vip] answers one score per row of the stacked block weights,
    that is per feature, in block order: their number is the sum of the
    numbers of rows of the blocks. *)
Theorem mb_vip_one_score_per_feature (f : Fitted) :
  length (vip_of f) = list_sum (map (fun W => length W) (W_ f)).
Proof.
  unfold vip_of. rewrite length_map, np_sum_axis1_length.
  unfold np_multiply_rows, np_square, np_vstack.
  rewrite !length_map. apply length_concat.
Qed.

(** X8. The scores do not change either when the super-scores or the
    y-loadings are multiplied by -1: they too are only used squared. *)
Theorem mb_vip_invariant_under_score_negation (f : Fitted) :
  vip_of {| W_ := W_ f; P_ := P_ f; Ts_ := map (map Qopp) (Ts_ f); V_ := V_ f |}
  = vip_of f /\
  vip_of {| W_ := W_ f; P_ := P_ f; Ts_ := Ts_ f; V_ := map (map Qopp) (V_ f) |}
  = vip_of f.
Proof.
  unfold vip_of. cbn [W_ P_ Ts_ V_]. rewrite !np_square_opp. split; reflexivity.
Qed.

(** ** Further properties of the p-values *)

Lemma count_null_ge_all (feat : nat) (o : npfloat) (nulls : list (list npfloat)) :
  (forall v, In v nulls -> np_greater_equal (nth feat v NaN) o = true) ->
  count_null_ge feat o nulls = length nulls.
Proof.
  unfold count_null_ge. induction nulls as [|v nulls IH]; intros H; [reflexivity|].
  cbn [List.filter]. rewrite (H v (or_introl eq_refl)). cbn [length].
  f_equal. apply IH. intros v' Hv'. apply H. now right.
Qed.

Lemma count_null_ge_nan (feat : nat) (nulls : list (list npfloat)) :
  count_null_ge feat NaN nulls = 0%nat.
Proof.
  unfold count_null_ge. induction nulls as [|v nulls IH]; [reflexivity|].
  cbn [List.filter].
  replace (np_greater_equal (nth feat v NaN) NaN) with false
    by (destruct (nth feat v NaN); reflexivity).
  exact IH.
Qed.

(** X9. When [mb_vip_permtest] returns, a feature whose null scores are
    all at least its observed score has the p-value 1. *)
Theorem permtest_p_value_one_when_never_above
    (x : py_x) (y : loc) (n_permutations : nat) (return_scores : bool)
    (w w' : world) (p_vals : list Q) (scores : option (list (list npfloat))) :
  mb_vip_permtest x y n_permutations return_scores w = (Ok (p_vals, scores), w') ->
  exists f_obs nulls,
    attrs (self_ w) = Some f_obs /\
    null_trials x (default [] (arrays w !! y)) w w' nulls /\
    (length (hd [] nulls) = length (vip_of f_obs) ->
     forall feat, (feat < length (vip_of f_obs))%nat ->
       (forall v, In v nulls ->
          np_greater_equal (nth feat v NaN) (nth feat (vip_of f_obs) NaN) = true) ->
       nth feat p_vals 0 == 1).
Proof.
  intros H. apply permtest_trials in H
    as (f_obs & nulls & vip_null & Hattrs & Htrials & Hlen & Hp & _).
  cbn [fst] in Hp. exists f_obs, nulls.
  split; [exact Hattrs|]. split; [exact Htrials|].
  intros Hshape feat Hfeat Hall.
  pose proof (empirical_p_values_counts _ _ _ _ _ Hp) as [Hpos _].
  apply empirical_p_values_formula in Hp; [|exact Hshape].
  fold (spec_p_values (vip_of f_obs) nulls n_permutations) in Hp.
  rewrite Hp, spec_p_values_nth by exact Hfeat.
  rewrite (count_null_ge_all _ _ _ Hall), Hlen.
  apply Qmult_inv_r. intros H0.
  assert (Hz : (0 < Z.of_nat n_permutations)%Z) by lia.
  rewrite Zlt_Qlt, H0 in Hz. now apply Qlt_irrefl in Hz.
Qed.

(** X10. When [mb_vip_permtest] returns, a feature whose observed score
    is NaN has the p-value 0: no comparison with NaN holds, so no null
    trial is counted. *)
Theorem permtest_p_value_zero_for_nan_score
    (x : py_x) (y : loc) (n_permutations : nat) (return_scores : bool)
    (w w' : world) (p_vals : list Q) (scores : option (list (list npfloat))) :
  mb_vip_permtest x y n_permutations return_scores w = (Ok (p_vals, scores), w') ->
  exists f_obs nulls,
    attrs (self_ w) = Some f_obs /\
    null_trials x (default [] (arrays w !! y)) w w' nulls /\
    (length (hd [] nulls) = length (vip_of f_obs) ->
     forall feat, (feat < length (vip_of f_obs))%nat ->
       nth feat (vip_of f_obs) NaN = NaN ->
       nth feat p_vals 0 == 0).
Proof.
  intros H. apply permtest_trials in H
    as (f_obs & nulls & vip_null & Hattrs & Htrials & Hlen & Hp & _).
  cbn [fst] in Hp. exists f_obs, nulls.
  split; [exact Hattrs|]. split; [exact Htrials|].
  intros Hshape feat Hfeat Hnan.
  apply empirical_p_values_formula in Hp; [|exact Hshape].
  fold (spec_p_values (vip_of f_obs) nulls n_permutations) in Hp.
  rewrite Hp, spec_p_values_nth by exact Hfeat.
  rewrite Hnan, count_null_ge_nan. unfold Qdiv. apply Qmult_0_l.
Qed.

(** ** The cross-validation *)

Lemma self_predict_world (X : list matrix) (w : world) :
  snd (self_predict X w) = w.
Proof.
  unfold self_predict. mstep. destruct (attrs (self_ w)); reflexivity.
Qed.

Lemma bind_world {A B} (m : M A) (f : A -> M B) (w : world) :
  snd (m w) = w -> (forall a, snd (f a w) = w) -> snd ((m ≫= f) w) = w.
Proof.
  intros Hm Hf. rewrite bind_run. destruct (m w) as [[a|e] w1]; cbn [snd] in *.
  - subst w1. apply Hf.
  - exact Hm.
Qed.

(** One fold: the model takes the candidate count and the fit of the
    training rows, that call joins the history, nothing else changes. *)
Lemma cv_fold_ok (data : list loc) (response_y : list Q) (y_continuous : bool)
    (i : nat) (split : list nat * list nat) (lv lv' : gmap string (list Q))
    (w w' : world) :
  cv_fold data response_y y_continuous i split lv w = (Ok lv', w') ->
  let c := fold_call (map (fun l => default [] (frames w !! l)) data) response_y i split in
  frames w' = frames w /\ arrays w' = arrays w /\ rng w' = rng w /\
  stdout w' = stdout w /\ figure w' = figure w /\
  fit_log w' = fit_log w ++ [c] /\
  is_Some (engine_fit (call_n c) (call_X c) (call_y c)) /\
  self_ w' = model_after [c] (self_ w).
Proof.
  unfold cv_fold. destruct split as [train_indices test_indices].
  munfold. repeat mstep. unfold self_fit_fresh. rewrite !bind_run.
  rewrite fit_values_run. cbn [with_self self_ n_components].
  set (X := map (fun b => iloc b train_indices) _).
  destruct (engine_fit i X _) as [[f residue]|] eqn:Efit; [|discriminate].
  mstep.
  match goal with |- ?m ?w0 = _ -> _ => set (tail := m); set (w1 := w0) end.
  intros H.
  assert (Hw : snd (tail w1) = w1).
  { subst tail. apply bind_world; [apply self_predict_world|]. intros yp.
    apply bind_world; [reflexivity|]. intros lv0.
    apply bind_world; [apply self_predict_world|]. intros yp'. reflexivity. }
  rewrite H in Hw. cbn [snd] in Hw. subst w' w1.
  cbv zeta. unfold fold_call, model_after. cbn [fst last call_n call_X call_y].
  fold X. rewrite Efit. cbn.
  repeat split; try reflexivity. eexists; reflexivity.
Qed.

Lemma model_after_app (calls1 calls2 : list fit_call) (o : MamsiPls) :
  model_after (calls1 ++ calls2) o = model_after calls2 (model_after calls1 o).
Proof.
  unfold model_after. destruct (last calls2) as [c|] eqn:E2.
  - rewrite last_app, E2. destruct (last calls1); reflexivity.
  - apply last_None in E2. subst calls2. rewrite app_nil_r. reflexivity.
Qed.

(** The folds of one candidate count. *)
Lemma cv_folds_ok (data : list loc) (response_y : list Q) (y_continuous : bool)
    (i : nat) (splits : list (list nat * list nat)) :
  forall (lv lv' : gmap string (list Q)) (w w' : world),
    for_in splits (cv_fold data response_y y_continuous i) lv w = (Ok lv', w') ->
    let calls := map (fold_call (map (fun l => default [] (frames w !! l)) data)
                        response_y i) splits in
    frames w' = frames w /\ arrays w' = arrays w /\ rng w' = rng w /\
    stdout w' = stdout w /\ figure w' = figure w /\
    fit_log w' = fit_log w ++ calls /\
    Forall (fun c => is_Some (engine_fit (call_n c) (call_X c) (call_y c))) calls /\
    self_ w' = model_after calls (self_ w).
Proof.
  induction splits as [|split splits IH]; intros lv lv' w w' H.
  - cbn in H. injection H as <- <-. cbn. rewrite app_nil_r.
    repeat split; try reflexivity. constructor.
  - cbn [for_in] in H. apply bind_ok in H as (lv1 & w1 & Hfold & Hrest).
    apply cv_fold_ok in Hfold as (Hfr & Harr & Hrng & Hout & Hfig & Hlog & Hfit & Hself).
    apply IH in Hrest as (Hfr' & Harr' & Hrng' & Hout' & Hfig' & Hlog' & Hfit' & Hself').
    rewrite Hfr in Hlog', Hfit', Hself'.
    cbv zeta. cbn [map].
    split; [congruence|]. split; [congruence|]. split; [congruence|].
    split; [congruence|]. split; [congruence|].
    split; [rewrite Hlog', Hlog, <- app_assoc; reflexivity|].
    split; [constructor; assumption|].
    rewrite Hself', Hself. symmetry. apply (model_after_app [_]).
Qed.
Lemma scores_of_append_eq (dst : string) (v : Q) (env : gmap string (list Q)) :
  scores_of dst (append_score dst v env) = scores_of dst env ++ [v].
Proof. unfold scores_of, append_score. now rewrite lookup_insert_eq. Qed.

Lemma scores_of_append_ne (name dst : string) (v : Q) (env : gmap string (list Q)) :
  dst <> name -> scores_of name (append_score dst v env) = scores_of name env.
Proof. intros H. unfold scores_of, append_score. now rewrite lookup_insert_ne. Qed.

Lemma append_mean_ok (dst src : string) (lv env env' : gmap string (list Q)) :
  append_mean dst src lv env = Ok env' ->
  exists m, env' = append_score dst m env.
Proof.
  unfold append_mean. destruct (statistics_mean _) as [m|e]; [|discriminate].
  intros [= <-]. exists m. reflexivity.
Qed.

Lemma result_bind_ok {A B} (r : result A) (f : A -> result B) (b : B) :
  r ≫= f = Ok b -> exists a, r = Ok a /\ f a = Ok b.
Proof.
  destruct r as [a|e]; [|discriminate]. intros H. exists a. split; [reflexivity|exact H].
Qed.

(** Every curve of the outcome type gets one more score per candidate
    count. *)
Lemma append_means_length (y_continuous : bool) (lv env env' : gmap string (list Q)) :
  append_means y_continuous lv env = Ok env' ->
  forall name, In name (curve_names y_continuous) ->
    length (scores_of name env') = S (length (scores_of name env)).
Proof.
  unfold append_means. destruct y_continuous.
  - intros H.
    destruct (append_mean "r2" "lv_r2" lv env) as [e1|] eqn:E1; [|discriminate].
    apply append_mean_ok in E1 as [m1 ->].
    apply append_mean_ok in H as [m2 ->].
    intros name Hin. cbn [curve_names In] in Hin.
    destruct Hin as [<-|[<-|[]]];
      repeat (rewrite scores_of_append_eq || rewrite scores_of_append_ne by discriminate);
      rewrite ?length_app; cbn [length]; lia.
  - intros H.
    repeat (apply result_bind_ok in H as (? & [? ->]%append_mean_ok & H)).
    apply append_mean_ok in H as [? ->].
    intros name Hin. cbn [curve_names In] in Hin.
    repeat (destruct Hin as [<-|Hin];
            [repeat (rewrite scores_of_append_eq
                     || rewrite scores_of_append_ne by discriminate);
             rewrite ?length_app; cbn [length]; lia|]).
    destruct Hin.
Qed.

(** One candidate count: the folds of the splitter, then the means. *)
Lemma cv_component_ok (data : list loc) (response_y : list Q) (no_fold : nat)
    (y_continuous : bool) (i : nat) (env env' : gmap string (list Q)) (w w' : world) :
  cv_component data response_y no_fold y_continuous i env w = (Ok env', w') ->
  exists splits lv,
    KFold_split no_fold (length response_y) = Ok splits /\
    for_in splits (cv_fold data response_y y_continuous i) ∅ w = (Ok lv, w') /\
    append_means y_continuous lv env = Ok env'.
Proof.
  unfold cv_component. rewrite bind_run. cbn [lift].
  destruct (KFold_split no_fold (length response_y)) as [splits|e]; [|discriminate].
  rewrite bind_run.
  destruct (for_in splits _ ∅ w) as [[lv|e] w1] eqn:Efolds; [|discriminate].
  cbn [lift]. destruct (append_means y_continuous lv env) as [env1|e] eqn:Emeans;
    [|discriminate].
  intros [= <- <-]. exists splits, lv. repeat split; assumption.
Qed.

(** The loop over the candidate counts [start, start + n). *)
Lemma cv_components_ok (data : list loc) (response_y : list Q) (no_fold : nat)
    (y_continuous : bool) (n : nat) :
  forall (start : nat) (env env' : gmap string (list Q)) (w w' : world),
    for_in (seq start n) (cv_component data response_y no_fold y_continuous) env w
    = (Ok env', w') ->
    exists splits,
      ((1 <= n)%nat -> KFold_split no_fold (length response_y) = Ok splits) /\
      let calls :=
        flat_map (fun i => map (fold_call (map (fun l => default [] (frames w !! l)) data)
                                  response_y i) splits) (seq start n) in
      frames w' = frames w /\ arrays w' = arrays w /\ rng w' = rng w /\
      stdout w' = stdout w /\ figure w' = figure w /\
      fit_log w' = fit_log w ++ calls /\
      Forall (fun c => is_Some (engine_fit (call_n c) (call_X c) (call_y c))) calls /\
      self_ w' = model_after calls (self_ w) /\
      forall name, In name (curve_names y_continuous) ->
        length (scores_of name env') = (length (scores_of name env) + n)%nat.
Proof.
  induction n as [|n IH]; intros start env env' w w' H.
  - cbn in H. injection H as <- <-. exists []. split; [lia|].
    cbn. rewrite app_nil_r. repeat split; try reflexivity; [constructor|].
    intros name _. lia.
  - cbn [seq for_in] in H. apply bind_ok in H as (env1 & w1 & Hcomp & Hrest).
    apply cv_component_ok in Hcomp as (splits & lv & Hsplit & Hfolds & Hmeans).
    apply cv_folds_ok in Hfolds
      as (Hfr & Harr & Hrng & Hout & Hfig & Hlog & Hfit & Hself).
    apply IH in Hrest
      as (splits' & Hsplit' & Hfr' & Harr' & Hrng' & Hout' & Hfig' & Hlog' & Hfit'
          & Hself' & Hlen').
    rewrite Hfr in Hlog', Hfit', Hself'.
    assert (Hsame :
      flat_map (fun i => map (fold_call (map (fun l => default [] (frames w !! l)) data)
                                response_y i) splits') (seq (S start) n) =
      flat_map (fun i => map (fold_call (map (fun l => default [] (frames w !! l)) data)
                                response_y i) splits) (seq (S start) n)).
    { destruct n as [|n]; [reflexivity|].
      rewrite Hsplit in Hsplit'. specialize (Hsplit' ltac:(lia)).
      now injection Hsplit' as <-. }
    rewrite Hsame in Hlog', Hfit', Hself'.
    exists splits. split; [intros _; exact Hsplit|].
    cbv zeta. cbn [seq flat_map].
    split; [congruence|]. split; [congruence|]. split; [congruence|].
    split; [congruence|]. split; [congruence|].
    split; [rewrite Hlog', Hlog, <- app_assoc; reflexivity|].
    split; [apply Forall_app; split; assumption|].
    split; [rewrite Hself', Hself; symmetry; apply model_after_app|].
    intros name Hin. rewrite (Hlen' name Hin).
    rewrite (append_means_length _ _ _ _ Hmeans name Hin). lia.
Qed.

Lemma scores_of_empty (name : string) : scores_of name ∅ = [].
Proof. unfold scores_of. now rewrite lookup_empty. Qed.

(** A run of [cross_validate] that answers curves: the inputs passed the
    validation, the history grew by the calls of the folds, the model is
    the one after those calls, the rest of the world is as it was up to a
    copy of the single block, and every curve has one score per count. *)
Lemma cross_validate_ok (x : py_x) (y : loc) (n no_fold : nat) (y_continuous : bool)
    (metric metric' : string) (env : gmap string (list Q)) (w w1 : world) :
  cross_validate x y n no_fold y_continuous metric w = (Ok (metric', env), w1) ->
  let yv := default [] (arrays w !! y) in
  validate_metric y_continuous metric = Ok metric' /\
  x <> XList [] /\ yv <> [] /\ (2 <= no_fold)%nat /\
  exists splits,
    ((1 <= n)%nat -> KFold_split no_fold (length yv) = Ok splits) /\
    let calls := cv_calls (frames_of x w) yv splits n in
    frames w ⊆ frames w1 /\ frames_of x w1 = frames_of x w /\
    arrays w1 = arrays w /\ rng w1 = rng w /\
    stdout w1 = stdout w /\ figure w1 = figure w /\
    fit_log w1 = fit_log w ++ calls /\
    Forall (fun c => is_Some (engine_fit (call_n c) (call_X c) (call_y c))) calls /\
    self_ w1 = model_after calls (self_ w) /\
    forall name, In name (curve_names y_continuous) ->
      length (scores_of name env) = n.
Proof.
  unfold cross_validate. intros H.
  apply bind_ok in H as (x' & w0 & Hcopy & H).
  apply bind_ok in H as (data & w0' & Hdata & H).
  assert (Hpre : x <> XList [] /\ w0' = w0 /\ frames w ⊆ frames w0 /\
                 frames_of x w0 = frames_of x w /\
                 w0 = with_frames (frames w0) w /\
                 map (fun l => default [] (frames w0 !! l)) data = frames_of x w).
  { destruct x as [ls|l]; cbn [copy_x] in Hcopy.
    - injection Hcopy as <- <-. destruct ls as [|l ls]; [discriminate|].
      cbn in Hdata. injection Hdata as <- <-.
      split; [discriminate|]. split; [reflexivity|]. split; [reflexivity|].
      split; [reflexivity|].
      split; [unfold with_frames; now rewrite world_eta|reflexivity].
    - change (read_frame l ≫= _) with
        ((m ← read_frame l; new_frame m) ≫= fun l' => mret (XFrame l')) in Hcopy.
      rewrite bind_run, copy_frame_run in Hcopy. injection Hcopy as <- <-.
      cbn in Hdata. injection Hdata as <- <-.
      split; [discriminate|]. split; [reflexivity|].
      split; [apply fresh_frame_subseteq|].
      split.
      { unfold frames_of. cbn [blocks_of map with_frames frames]. f_equal.
        rewrite lookup_insert. case_decide as Hl; [|reflexivity].
        rewrite <- Hl.
        replace (frames w !! fresh (dom (frames w))) with (@None (list (list Q)))
          by (symmetry; apply not_elem_of_dom, is_fresh).
        reflexivity. }
      split; [reflexivity|].
      cbn. unfold frames_of. cbn. now rewrite lookup_insert_eq. }
  destruct Hpre as (Hx & -> & Hsub & Hxframes & Hw0 & Hblocks).
  revert H. munfold. repeat mstep.
  assert (Harr0 : arrays w0 = arrays w) by (rewrite Hw0; reflexivity).
  rewrite Harr0. fold (default [] (arrays w !! y)).
  set (yv := default [] (arrays w !! y)).
  destruct (check_array yv) as [_y|e] eqn:Echeck; [|discriminate].
  assert (_y = yv /\ yv <> []) as [-> Hy].
  { unfold check_array in Echeck. destruct yv; [discriminate|].
    injection Echeck as <-. split; [reflexivity|discriminate]. }
  mstep. destruct (validate_metric y_continuous metric) as [m1|e] eqn:Eval;
    [|discriminate].
  mstep. unfold KFold_init.
  destruct (no_fold <=? 1)%nat eqn:Ek; [discriminate|]. apply Nat.leb_gt in Ek.
  mstep.
  destruct (for_in (seq 1 n) _ ∅ w0) as [[env1|e] w2] eqn:Eloop; [|discriminate].
  intros [= <- <- <-].
  apply cv_components_ok in Eloop
    as (splits & Hsplit & Hfr & Harr & Hrng & Hout & Hfig & Hlog & Hfit & Hself & Hlen).
  rewrite Hblocks in Hlog, Hfit, Hself. fold (cv_calls (frames_of x w) yv splits n) in *.
  split; [reflexivity|]. split; [exact Hx|]. split; [exact Hy|]. split; [lia|].
  exists splits. split; [exact Hsplit|]. cbv zeta.
  rewrite Hw0 in Hrng, Hout, Hfig, Hlog, Hself.
  cbn [with_frames rng stdout figure fit_log self_] in Hrng, Hout, Hfig, Hlog, Hself.
  split; [rewrite Hfr; exact Hsub|].
  split; [unfold frames_of in *; rewrite Hfr; exact Hxframes|]. split; [congruence|].
  split; [exact Hrng|]. split; [exact Hout|]. split; [exact Hfig|].
  split; [exact Hlog|]. split; [exact Hfit|]. split; [exact Hself|].
  intros name Hin. rewrite (Hlen name Hin), scores_of_empty. reflexivity.
Qed.

(** ** Further properties of the latent-variable estimation *)

(** The curve of the metric in use is one of the curves of the outcome
    type. *)
Lemma select_metric_curve (y_continuous : bool) (metric metric' : string)
    (env : gmap string (list Q)) :
  validate_metric y_continuous metric = Ok metric' ->
  exists name, In name (curve_names y_continuous) /\
    select_metric metric' env = scores_of name env.
Proof.
  unfold validate_metric. destruct y_continuous; cbv zeta.
  - intros [= <-]. exists "q2"%string. split; [cbn; auto|reflexivity].
  - destruct (negb _) eqn:E; [discriminate|]. intros [= <-].
    apply negb_false_iff in E. unfold str_in in E. cbn [existsb] in E.
    repeat (apply orb_true_iff in E as [E|E];
            [apply String.eqb_eq in E; subst metric;
             eexists; split; [|reflexivity]; cbn; auto 12|]).
    discriminate.
Qed.

(** A run of [estimate_lv] that returns, step by step. *)
Lemma estimate_lv_returns (x : py_x) (y : loc) (n no_fold : nat) (y_continuous : bool)
    (metric : string) (plateau_threshold increase_threshold : Q) (get_scores : bool)
    (w w' : world) (r : option (list (string * list Q))) :
  estimate_lv x y n no_fold y_continuous metric plateau_threshold increase_threshold
    get_scores w = (Ok r, w') ->
  exists metric' env w1 bend f residue,
    cross_validate x y n no_fold y_continuous metric w = (Ok (metric', env), w1) /\
    r = (if get_scores then Some (make_perf_scores y_continuous n env) else None) /\
    bend_of (select_metric metric' env) increase_threshold = Ok bend /\
    engine_fit (selected_count (select_metric metric' env) plateau_threshold bend)
      (frames_of x w1) (default [] (arrays w1 !! y)) = Some (f, residue) /\
    refitted_at_selection x y metric' (select_metric metric' env) plateau_threshold
      increase_threshold bend f w1 w'.
Proof.
  intros H.
  destruct (cross_validate x y n no_fold y_continuous metric w) as [[[m' env]|e] w1]
    eqn:Hcv.
  2: { unfold estimate_lv in H. rewrite bind_run, Hcv in H. discriminate. }
  rewrite (estimate_lv_after_curves _ _ _ _ _ _ plateau_threshold increase_threshold
             get_scores _ _ _ _ Hcv) in H.
  pose proof (select_and_refit_spec x y m' (select_metric m' env) plateau_threshold
                increase_threshold w1) as Hspec.
  destruct (bend_of (select_metric m' env) increase_threshold) as [bend|e] eqn:Ebend.
  2: { rewrite Hspec in H. discriminate. }
  cbv zeta in Hspec.
  destruct (engine_fit _ (frames_of x w1) _) as [[f residue]|] eqn:Efit.
  2: { destruct Hspec as (w'' & Hrun & _). rewrite Hrun in H. discriminate. }
  destruct Hspec as (w'' & Hrun & Hself & Hlog & Hout).
  rewrite Hrun in H. injection H as <- <-.
  exists m', env, w1, bend, f, residue.
  split; [reflexivity|]. split; [reflexivity|]. split; [exact Ebend|].
  unfold selected_count. split; [exact Efit|].
  unfold refitted_at_selection, selected_count, selection_messages.
  split; [exact Hself|]. split; [exact Hlog|].
  rewrite Hout. destruct (_find_plateau _ plateau_threshold 3) as [[s e]|]; reflexivity.
Qed.

(** The selected count lies between 1 and the length of the curve less
    one. *)
Lemma selected_count_bounds (data : list Q) (plateau_threshold increase_threshold : Q)
    (bend : nat) :
  bend_of data increase_threshold = Ok bend ->
  (1 <= selected_count data plateau_threshold bend < length data)%nat.
Proof.
  intros Hbend. apply bend_of_ok in Hbend as (Hb & _).
  unfold selected_count.
  destruct (_find_plateau data plateau_threshold 3) as [[s e]|] eqn:E; [|exact Hb].
  apply find_plateau_sound in E as (_ & Hlen & (Hs & _) & _). lia.
Qed.

(** X11. The table [estimate_lv] returns on request has one row per
    candidate count: its first column holds the counts 1 to
    [n_components] and every column has [n_components] cells; without the
    request nothing is returned. *)
Theorem estimate_lv_table_has_one_row_per_count
    (x : py_x) (y : loc) (n no_fold : nat) (y_continuous : bool) (metric : string)
    (plateau_threshold increase_threshold : Q) (get_scores : bool) (w w' : world)
    (r : option (list (string * list Q))) :
  estimate_lv x y n no_fold y_continuous metric plateau_threshold increase_threshold
    get_scores w = (Ok r, w') ->
  if get_scores then
    exists table,
      r = Some table /\
      hd_error table = Some ("Number of Components"%string, component_column n) /\
      Forall (fun column => length (snd column) = n) table
  else r = None.
Proof.
  intros H. apply estimate_lv_returns in H
    as (m' & env & w1 & bend & f & residue & Hcv & -> & _).
  destruct get_scores; [|reflexivity].
  eexists. split; [reflexivity|].
  apply cross_validate_ok in Hcv as (_ & _ & _ & _ & splits & _ & Hrest).
  cbv zeta in Hrest.
  destruct Hrest as (_ & _ & _ & _ & _ & _ & _ & _ & _ & Hlen).
  assert (Hcol : length (component_column n) = n)
    by (unfold component_column; now rewrite length_map, length_seq).
  unfold make_perf_scores. destruct y_continuous; (split; [reflexivity|]);
    repeat (constructor; [cbn [snd]; first [exact Hcol | apply Hlen; cbn; auto 12]|]);
    constructor.
Qed.

(** X12. [estimate_lv] can only return when at least two candidate counts
    were asked for, and the count it leaves in the model is at least 1 and
    below [n_components]: the largest candidate is never selected. *)
Theorem estimate_lv_never_selects_largest_count
    (x : py_x) (y : loc) (n no_fold : nat) (y_continuous : bool) (metric : string)
    (plateau_threshold increase_threshold : Q) (get_scores : bool) (w w' : world)
    (r : option (list (string * list Q))) :
  estimate_lv x y n no_fold y_continuous metric plateau_threshold increase_threshold
    get_scores w = (Ok r, w') ->
  (2 <= n)%nat /\ (1 <= n_components (self_ w') < n)%nat /\
  is_Some (attrs (self_ w')).
Proof.
  intros H. apply estimate_lv_returns in H
    as (m' & env & w1 & bend & f & residue & Hcv & _ & Hbend & _ & Hself & _).
  apply cross_validate_ok in Hcv as (Hval & _ & _ & _ & splits & _ & Hrest).
  cbv zeta in Hrest.
  destruct Hrest as (_ & _ & _ & _ & _ & _ & _ & _ & _ & Hlen).
  destruct (select_metric_curve _ _ _ env Hval) as (name & Hin & Hcurve).
  pose proof (selected_count_bounds _ plateau_threshold _ _ Hbend) as Hsel.
  assert (Hl : length (select_metric m' env) = n)
    by (rewrite Hcurve; apply Hlen; exact Hin).
  rewrite Hl in Hsel. rewrite Hself. cbn.
  split; [lia|]. split; [exact Hsel|]. eexists; reflexivity.
Qed.

(** X13. With at most three candidate counts no plateau can be found:
    when [estimate_lv] returns, the count it leaves in the model is the
    bend, and the last lines it printed are the bend, the advice to explore
    more latent variables and the refit. *)
Theorem estimate_lv_advises_with_at_most_three_counts
    (x : py_x) (y : loc) (n no_fold : nat) (y_continuous : bool) (metric : string)
    (plateau_threshold increase_threshold : Q) (get_scores : bool) (w w' : world)
    (r : option (list (string * list Q))) :
  estimate_lv x y n no_fold y_continuous metric plateau_threshold increase_threshold
    get_scores w = (Ok r, w') ->
  (n <= 3)%nat ->
  exists metric' bend,
    validate_metric y_continuous metric = Ok metric' /\
    n_components (self_ w') = bend /\
    stdout w' = stdout w ++
      [MsgBend metric' (increase_threshold * 100) bend; MsgNoPlateau; MsgRefitted bend].
Proof.
  intros H Hn. apply estimate_lv_returns in H
    as (m' & env & w1 & bend & f & residue & Hcv & _ & Hbend & _ & Hself & _ & Hout).
  apply cross_validate_ok in Hcv as (Hval & _ & _ & _ & splits & _ & Hrest).
  cbv zeta in Hrest.
  destruct Hrest as (_ & _ & _ & _ & Hout1 & _ & _ & _ & _ & Hlen).
  destruct (select_metric_curve _ _ _ env Hval) as (name & Hin & Hcurve).
  assert (Hnone : _find_plateau (select_metric m' env) plateau_threshold 3 = None).
  { destruct (_find_plateau _ plateau_threshold 3) as [[s e]|] eqn:E; [|reflexivity].
    apply find_plateau_sound in E as (_ & Hl & (Hs & _) & _).
    rewrite Hcurve, (Hlen name Hin) in Hl. lia. }
  unfold selected_count in Hself. unfold selection_messages in Hout.
  rewrite Hnone in Hself, Hout.
  exists m', bend. split; [exact Hval|]. split; [rewrite Hself; reflexivity|].
  rewrite Hout, Hout1. reflexivity.
Qed.

Lemma model_after_copy (calls : list fit_call) (o : MamsiPls) :
  copy (model_after calls o) = copy o.
Proof. unfold model_after. destruct (last calls); reflexivity. Qed.

Lemma cv_calls_last (blocks : list matrix) (response_y : list Q)
    (splits : list (list nat * list nat)) (n : nat) (sp : list nat * list nat) :
  (1 <= n)%nat -> last splits = Some sp ->
  last (cv_calls blocks response_y splits n) = Some (fold_call blocks response_y n sp).
Proof.
  intros Hn Hlast. unfold cv_calls.
  replace n with (n - 1 + 1)%nat at 1 by lia.
  rewrite seq_app, flat_map_app. cbn [seq flat_map]. rewrite app_nil_r.
  replace (1 + (n - 1))%nat with n by lia.
  destruct splits as [|s0 rest]; [discriminate|].
  rewrite last_app.
  replace (last (map (fold_call blocks response_y n) (s0 :: rest)))
    with (Some (fold_call blocks response_y n sp)); [reflexivity|].
  change (map ?f ?l) with (f <$> l). rewrite fmap_last, Hlast. reflexivity.
Qed.

(** What [select_and_refit] leaves of the data when the model deflates on
    a copy. *)
Lemma select_and_refit_data (x : py_x) (y : loc) (metric : string) (data : list Q)
    (plateau_threshold increase_threshold : Q) (w w' : world) :
  select_and_refit x y metric data plateau_threshold increase_threshold w
  = (Ok tt, w') ->
  rng w' = rng w /\ copy (self_ w') = copy (self_ w) /\
  (copy (self_ w) = true -> frames w' = frames w /\ arrays w' = arrays w).
Proof.
  unfold select_and_refit. rewrite bind_run. cbn [lift].
  destruct (bend_of data increase_threshold) as [bend|e]; [|discriminate].
  cbv zeta. unfold try_except_TypeError.
  destruct (_find_plateau data plateau_threshold 3) as [[start e]|];
    cbn [fmap option_fmap option_map fst plt_axvline]; munfold; repeat mstep.
  - match goal with |- context [self_fit x y ?W] => set (w1 := W) end.
    rewrite self_fit_run. cbv zeta.
    change (frames_of x w1) with (frames_of x w).
    change (arrays w1) with (arrays w).
    change (n_components (self_ w1)) with start.
    change (copy (self_ w1)) with (copy (self_ w)).
    destruct (engine_fit start (frames_of x w) _) as [[f residue]|]; [|discriminate].
    repeat mstep.
    destruct (copy (self_ w)) eqn:Ecopy; intros [= <-]; cbn;
      (split; [reflexivity|]); (split; [exact Ecopy|]);
      [intros _; split; reflexivity|discriminate].
  - match goal with |- context [self_fit x y ?W] => set (w1 := W) end.
    rewrite self_fit_run. cbv zeta.
    change (frames_of x w1) with (frames_of x w).
    change (arrays w1) with (arrays w).
    change (n_components (self_ w1)) with bend.
    change (copy (self_ w1)) with (copy (self_ w)).
    destruct (engine_fit bend (frames_of x w) _) as [[f residue]|]; [|discriminate].
    repeat mstep.
    destruct (copy (self_ w)) eqn:Ecopy; intros [= <-]; cbn;
      (split; [reflexivity|]); (split; [exact Ecopy|]);
      [intros _; split; reflexivity|discriminate].
Qed.

(** The curve of the metric in use has one score per candidate count. *)
Lemma cross_validate_curve_length (x : py_x) (y : loc) (n no_fold : nat)
    (y_continuous : bool) (metric metric' : string) (env : gmap string (list Q))
    (w w1 : world) :
  cross_validate x y n no_fold y_continuous metric w = (Ok (metric', env), w1) ->
  length (select_metric metric' env) = n.
Proof.
  intros Hcv. apply cross_validate_ok in Hcv as (Hval & _ & _ & _ & splits & _ & Hrest).
  cbv zeta in Hrest.
  destruct Hrest as (_ & _ & _ & _ & _ & _ & _ & _ & _ & Hlen).
  destruct (select_metric_curve _ _ _ env Hval) as (name & Hin & ->).
  apply Hlen. exact Hin.
Qed.

(** X14. When [estimate_lv] returns, the engine was called once per
    candidate count and fold, on the training rows of the fold and never on
    the caller's own objects, and then once more on the caller's full
    blocks and response at the selected count: with k folds that is
    [n_components * k + 1] fits. *)
Theorem estimate_lv_history_of_fits
    (x : py_x) (y : loc) (n no_fold : nat) (y_continuous : bool) (metric : string)
    (plateau_threshold increase_threshold : Q) (get_scores : bool) (w w' : world)
    (r : option (list (string * list Q))) :
  estimate_lv x y n no_fold y_continuous metric plateau_threshold increase_threshold
    get_scores w = (Ok r, w') ->
  let yv := default [] (arrays w !! y) in
  exists splits,
    KFold_split no_fold (length yv) = Ok splits /\
    fit_log w' = fit_log w ++ cv_calls (frames_of x w) yv splits n ++
      [{| call_n := n_components (self_ w'); call_refs := Some (blocks_of x);
          call_X := frames_of x w; call_y := yv |}] /\
    length (fit_log w') = (length (fit_log w) + n * length splits + 1)%nat.
Proof.
  intros H yv.
  apply estimate_lv_returns in H
    as (m' & env & w1 & bend & f & residue & Hcv & _ & Hbend & _ & Hself & Hlog & _).
  assert (Hn : (2 <= n)%nat).
  { apply bend_of_ok in Hbend as (Hb & _).
    rewrite (cross_validate_curve_length _ _ _ _ _ _ _ _ _ _ Hcv) in Hb. lia. }
  apply cross_validate_ok in Hcv as (_ & _ & _ & _ & splits & Hsplit & Hrest).
  cbv zeta in Hrest.
  destruct Hrest as (_ & Hframes & Harr & _ & _ & _ & Hlog1 & _).
  exists splits. split; [apply Hsplit; lia|].
  assert (Hhist : fit_log w' = fit_log w ++ cv_calls (frames_of x w) yv splits n ++
      [{| call_n := n_components (self_ w'); call_refs := Some (blocks_of x);
          call_X := frames_of x w; call_y := yv |}]).
  { rewrite Hlog, Hlog1, Hframes, Harr, Hself, <- app_assoc. reflexivity. }
  split; [exact Hhist|].
  rewrite Hhist, !length_app. cbn [length]. unfold cv_calls.
  assert (Hcount : forall start,
    length (flat_map (fun i => map (fold_call (frames_of x w) yv i) splits) (seq start n))
    = (n * length splits)%nat).
  { clear. induction n as [|n IH]; intros start; [reflexivity|].
    cbn [seq flat_map]. rewrite length_app, length_map, IH. lia. }
  rewrite Hcount. lia.
Qed.
(** X15. A model that deflates on a copy ([copy] true) keeps the caller's
    data through [estimate_lv]: on return the response arrays are as they
    were, every block in memory holds what it held, the blocks of [x] read
    the same, and the random generator was not used. *)
Theorem estimate_lv_keeps_data_when_copying
    (x : py_x) (y : loc) (n no_fold : nat) (y_continuous : bool) (metric : string)
    (plateau_threshold increase_threshold : Q) (get_scores : bool) (w w' : world)
    (r : option (list (string * list Q))) :
  estimate_lv x y n no_fold y_continuous metric plateau_threshold increase_threshold
    get_scores w = (Ok r, w') ->
  copy (self_ w) = true ->
  arrays w' = arrays w /\ frames w ⊆ frames w' /\ frames_of x w' = frames_of x w /\
  rng w' = rng w /\ copy (self_ w') = true.
Proof.
  intros H Hcopy.
  destruct (cross_validate x y n no_fold y_continuous metric w) as [[[m' env]|e] w1]
    eqn:Hcv.
  2: { unfold estimate_lv in H. rewrite bind_run, Hcv in H. discriminate. }
  rewrite (estimate_lv_after_curves _ _ _ _ _ _ plateau_threshold increase_threshold
             get_scores _ _ _ _ Hcv) in H.
  destruct (select_and_refit x y m' _ plateau_threshold increase_threshold w1)
    as [[[]|e] w2] eqn:Hsel; [|discriminate].
  injection H as _ <-.
  apply cross_validate_ok in Hcv as (_ & _ & _ & _ & splits & _ & Hrest).
  cbv zeta in Hrest.
  destruct Hrest as (Hsub & Hframes & Harr & Hrng & _ & _ & _ & _ & Hself & _).
  assert (Hcopy1 : copy (self_ w1) = true)
    by (rewrite Hself, model_after_copy; exact Hcopy).
  apply select_and_refit_data in Hsel as (Hrng2 & Hcopy2 & Hdata).
  destruct (Hdata Hcopy1) as (Hfr2 & Harr2).
  split; [congruence|]. split; [rewrite Hfr2; exact Hsub|].
  split; [unfold frames_of in *; rewrite Hfr2; exact Hframes|].
  split; congruence.
Qed.
(** X16. When [estimate_lv] raises at the bend, the model is left as the
    cross-validation left it: it holds the largest candidate count and the
    attributes of the fit on the training rows of the last fold, not the
    model it held on entry. *)
Theorem estimate_lv_failure_leaves_last_fold_model
    (x : py_x) (y : loc) (n no_fold : nat) (y_continuous : bool) (metric : string)
    (plateau_threshold increase_threshold : Q) (get_scores : bool)
    (w w1 : world) (metric' : string) (env : gmap string (list Q))
    (splits : list (list nat * list nat)) (last_split : list nat * list nat) :
  cross_validate x y n no_fold y_continuous metric w = (Ok (metric', env), w1) ->
  (forall k, (S k < length (select_metric metric' env))%nat ->
     bend_below (select_metric metric' env) increase_threshold k = false) ->
  (1 <= n)%nat ->
  KFold_split no_fold (length (default [] (arrays w !! y))) = Ok splits ->
  last splits = Some last_split ->
  let w' := snd (estimate_lv x y n no_fold y_continuous metric plateau_threshold
                   increase_threshold get_scores w) in
  let c := fold_call (frames_of x w) (default [] (arrays w !! y)) n last_split in
  w' = w1 /\
  last (fit_log w') = Some c /\
  n_components (self_ w') = n /\
  is_Some (attrs (self_ w')) /\
  attrs (self_ w') = fst <$> engine_fit n (call_X c) (call_y c).
Proof.
  intros Hcv Hnone Hn Hsplits Hlast w' c.
  assert (Hw' : w' = w1).
  { subst w'.
    rewrite (estimate_lv_after_curves _ _ _ _ _ _ plateau_threshold increase_threshold
               get_scores _ _ _ _ Hcv).
    pose proof (select_and_refit_spec x y metric' (select_metric metric' env)
                  plateau_threshold increase_threshold w1) as Hspec.
    rewrite (bend_of_raise _ _ Hnone) in Hspec. rewrite Hspec. reflexivity. }
  rewrite Hw'. split; [reflexivity|].
  apply cross_validate_ok in Hcv as (_ & _ & _ & _ & splits' & Hsplit' & Hrest).
  cbv zeta in Hrest.
  destruct Hrest as (_ & _ & _ & _ & _ & _ & Hlog & Hfit & Hself & _).
  rewrite (Hsplit' Hn) in Hsplits. injection Hsplits as ->.
  pose proof (cv_calls_last (frames_of x w) (default [] (arrays w !! y)) splits n
                last_split Hn Hlast) as Hc.
  fold c in Hc.
  split; [rewrite Hlog, last_app, Hc; reflexivity|].
  rewrite Hself. unfold model_after. rewrite Hc. cbn [n_components attrs].
  change (call_n c) with n.
  split; [reflexivity|]. split; [|reflexivity].
  rewrite Forall_forall in Hfit.
  assert (Hin : c ∈ cv_calls (frames_of x w) (default [] (arrays w !! y)) splits n).
  { apply last_Some_elem_of. exact Hc. }
  destruct (Hfit c Hin) as [fr Hfr]. change (call_n c) with n in Hfr.
  rewrite Hfr. eexists; reflexivity.
Qed.

(** ** Further properties of the permutation test *)

(** X17. [mb_vip_permtest] prints nothing, draws nothing and leaves the
    response arrays alone; on return the random generator has advanced by
    exactly [n_permutations] draws, each a shuffle of the response as it
    was on entry.  With a model that deflates on a copy, every block in
    memory holds what it held. *)
Theorem permtest_side_effects
    (x : py_x) (y : loc) (n_permutations : nat) (return_scores : bool)
    (w w' : world) (r : list Q * option (list (list npfloat))) :
  mb_vip_permtest x y n_permutations return_scores w = (Ok r, w') ->
  stdout w' = stdout w /\ figure w' = figure w /\ arrays w' = arrays w /\
  rng w' = rng_before (rng w) (default [] (arrays w !! y)) n_permutations /\
  copy (self_ w') = copy (self_ w) /\
  (copy (self_ w) = true -> frames w ⊆ frames w').
Proof.
  intros H. apply permtest_ok in H
    as (f0 & h & nulls & vip_null & _ & Hsub & Hloop & _).
  apply permtest_loop_ok in Hloop
    as (calls & fs & _ & _ & _ & _ & _ & Hcopy & _ & Harr & Hout & Hfig & Hrng & Hfr & _).
  rewrite length_seq in Hrng.
  cbn [with_frames stdout figure arrays rng self_ frames] in *.
  repeat split; try assumption.
  intros Hc. rewrite (Hfr Hc). exact Hsub.
Qed.

Lemma deepcopy_nonempty (x : py_x) (w : world) :
  x <> XList [] ->
  exists x' h, deepcopy x w = (Ok x', with_frames h w) /\ x' <> XList [].
Proof.
  intros Hx. destruct x as [ls|l]; cbn [deepcopy].
  - destruct (deepcopy_loop_run ls [] w) as (acc' & h & Hrun & _ & Hlen).
    exists (XList acc'), h. rewrite bind_run, Hrun. split; [reflexivity|].
    intros [= ->]. destruct ls; [contradiction|]. cbn in Hlen. lia.
  - change (read_frame l ≫= _) with
      ((m ← read_frame l; new_frame m) ≫= fun l' => mret (XFrame l')).
    rewrite bind_run, copy_frame_run. eexists _, _. split; [reflexivity|discriminate].
Qed.

(** X18. Without a permutation there is nothing to stack: on a fitted
    model with blocks and a response, [mb_vip_permtest] with
    [n_permutations = 0] raises ValueError; the model, the history and the
    generator are as on entry. *)
Theorem permtest_without_permutation_raises
    (x : py_x) (y : loc) (return_scores : bool) (w : world) :
  is_Some (attrs (self_ w)) -> x <> XList [] -> default [] (arrays w !! y) <> [] ->
  exists w',
    mb_vip_permtest x y 0 return_scores w = (Raise ValueError, w') /\
    self_ w' = self_ w /\ fit_log w' = fit_log w /\ rng w' = rng w /\
    arrays w' = arrays w.
Proof.
  intros [f0 Hattrs] Hx Hy. unfold mb_vip_permtest. mstep. rewrite Hattrs.
  destruct (deepcopy_nonempty x w Hx) as (x' & h & Hcopy & Hx').
  rewrite bind_run, Hcopy, bind_run.
  assert (Hbl : exists bl, as_block_list x' (with_frames h w) = (Ok bl, with_frames h w)).
  { destruct x' as [[|l ls]|l]; [contradiction| |]; eexists; reflexivity. }
  destruct Hbl as (bl & ->). munfold. repeat mstep. cbn [with_frames arrays].
  destruct (default [] (arrays w !! y)) as [|y0 yv] eqn:Ey; [contradiction|].
  cbn [check_array]. mstep. rewrite mb_vip_run. cbn [with_frames self_].
  rewrite Hattrs. mstep. cbn [seq for_in]. mstep.
  eexists. split; [reflexivity|]. repeat split.
Qed.

Lemma empirical_p_values_stack (obs : list npfloat) (nulls : list (list npfloat))
    (M : nat) (ps : list Q) (stacked : list (list npfloat)) :
  empirical_p_values obs nulls M = Ok (ps, stacked) ->
  np_stack_axis1 nulls = Ok stacked.
Proof.
  unfold empirical_p_values.
  destruct (np_stack_axis1 nulls) as [m|e]; [|discriminate].
  destruct (np_greater_equal_column m obs) as [mask|e]; [|discriminate].
  intros [= _ <-]. reflexivity.
Qed.

(** X19. What [mb_vip_permtest] returns besides the p-values: nothing
    unless [return_scores], else the matrix of the null scores with one
    row per feature and one column per trial, the cell of a feature and a
    trial being the score of the feature in the null model of the trial.
    All null models have the same number of scores. *)
Theorem permtest_returned_null_scores
    (x : py_x) (y : loc) (n_permutations : nat) (return_scores : bool)
    (w w' : world) (p_vals : list Q) (scores : option (list (list npfloat))) :
  mb_vip_permtest x y n_permutations return_scores w = (Ok (p_vals, scores), w') ->
  exists nulls,
    null_trials x (default [] (arrays w !! y)) w w' nulls /\
    length nulls = n_permutations /\
    Forall (fun v => length v = length (hd [] nulls)) nulls /\
    scores =
      if return_scores
      then Some (map (fun feat => map (fun v => nth feat v NaN) nulls)
                     (seq 0 (length (hd [] nulls))))
      else None.
Proof.
  intros H. apply permtest_trials in H
    as (f_obs & nulls & vip_null & _ & Htrials & Hlen & Hp & Hscores & _).
  cbn [fst snd] in *. apply empirical_p_values_stack in Hp.
  apply (np_stack_axis1_ok NaN) in Hp as (_ & Hall & ->).
  exists nulls. split; [exact Htrials|]. split; [exact Hlen|].
  split; [exact Hall|exact Hscores].
Qed.

(** ** The order of the checks *)

(** X22. On a model that has not been fitted, [mb_vip] and
    [mb_vip_permtest] raise NotFittedError before anything else: whatever
    the data, no block is copied, no permutation is drawn, nothing is
    plotted, and the store is left as it was. *)
Theorem unfitted_model_raises_before_any_effect (x : py_x) (y : loc)
    (n_permutations : nat) (return_scores plot : bool) (w : world) :
  attrs (self_ w) = None ->
  mb_vip plot w = (Raise NotFittedError, w) /\
  mb_vip_permtest x y n_permutations return_scores w = (Raise NotFittedError, w).
Proof.
  intros Hnone. split.
  - rewrite mb_vip_run, Hnone. reflexivity.
  - unfold mb_vip_permtest. mstep. rewrite Hnone. reflexivity.
Qed.

(** X23. An empty list of blocks is refused with IndexError by the test
    [isinstance(data[0], list)]: in [estimate_lv] before the response and
    the metric are looked at, whatever they are, and in [mb_vip_permtest]
    on a fitted model before any permutation; the store is left as it
    was. *)
Theorem empty_block_list_raises_index_error (y : loc) (n no_fold : nat)
    (y_continuous : bool) (metric : string) (plateau_threshold increase_threshold : Q)
    (get_scores return_scores : bool) (w : world) :
  estimate_lv (XList []) y n no_fold y_continuous metric plateau_threshold
    increase_threshold get_scores w = (Raise IndexError, w) /\
  (is_Some (attrs (self_ w)) ->
   mb_vip_permtest (XList []) y n return_scores w = (Raise IndexError, w)).
Proof.
  split.
  - unfold estimate_lv. rewrite bind_run.
    unfold cross_validate. rewrite bind_run. reflexivity.
  - intros [f Hf]. unfold mb_vip_permtest. mstep. rewrite Hf.
    rewrite bind_run. reflexivity.
Qed.

End Mamsi.

(** ** Runs on the stand-in collaborators *)

Abbreviation toy_estimate_lv :=
  (estimate_lv Toy.fit Toy.predict Toy.KFold_split Toy.score Toy.score Toy.score
     Toy.score Toy.score Toy.score).
Abbreviation toy_cross_validate :=
  (cross_validate Toy.fit Toy.predict Toy.KFold_split Toy.score Toy.score Toy.score
     Toy.score Toy.score Toy.score).
Abbreviation toy_permtest := (mb_vip_permtest Toy.fit Toy.permutation Toy.sqrt).

(** The fitted toy model is what [fit] leaves from the new one. *)
Example toy_fitted_by_fit :
  self_fit Toy.fit (XList [0%nat]) 0%nat Toy.w_new = (Ok tt, Toy.w_fitted true).
Proof. vm_compute. reflexivity. Qed.

Abbreviation toy_x := (XList [0%nat]).
Abbreviation toy_y := (0%nat).

(** The curves of the testing AUC for three candidate counts. *)
Abbreviation toy_cv3 := (toy_cross_validate toy_x toy_y 3 2 false "auc" Toy.w_new).
(** The curves for five candidate counts. *)
Abbreviation toy_cv5 := (toy_cross_validate toy_x toy_y 5 2 false "auc" Toy.w_new).
(** Two trials of the permutation test on the fitted model. *)
Abbreviation toy_perm2 := (toy_permtest toy_x toy_y 2 false (Toy.w_fitted true)).

(** Three candidate counts: the testing AUC rises by a third, then by a
    sixth of its first value, never by less than 5%. *)
Lemma estimate_lv_raises_without_bend_witness :
  toy_estimate_lv toy_x toy_y 3 2 false "auc" 0.01 0.05 false Toy.w_new
  = (Raise ValueError, snd toy_cv3).
Proof.
  pose (env := match fst toy_cv3 with Ok (_, env) => env | Raise _ => ∅ end).
  rewrite (estimate_lv_raises_without_bend Toy.fit Toy.predict Toy.KFold_split
             Toy.score Toy.score Toy.score Toy.score Toy.score Toy.score
             toy_x toy_y 3 2 false "auc" 0.01 0.05 false Toy.w_new (snd toy_cv3)
             "auc" env).
  - vm_compute. reflexivity.
  - vm_compute. reflexivity.
  - intros k Hk.
    assert (Hlen : length (select_metric "auc" env) = 3%nat) by (vm_compute; reflexivity).
    rewrite Hlen in Hk.
    destruct k as [|[|k]]; [vm_compute; reflexivity..|lia].
Defined.

(** Five candidate counts, plateau threshold 0.1, increase threshold 0.15:
    the bend is at 3, the plateau starts at 2, and 2 is selected. *)
Lemma estimate_lv_selects_count_and_refits_witness :
  exists w',
    toy_estimate_lv toy_x toy_y 5 2 false "auc" 0.1 0.15 false Toy.w_new = (Ok None, w') /\
    self_ w' = {| n_components := 2; copy := true; attrs := Some Toy.observed |} /\
    stdout w' = [MsgBend "auc" (0.15 * 100) 3; MsgPlateau "auc" 2; MsgRefitted 2].
Proof.
  pose (env := match fst toy_cv5 with Ok (_, env) => env | Raise _ => ∅ end).
  assert (Hcv : toy_cv5 = (Ok ("auc"%string, env), snd toy_cv5))
    by (vm_compute; reflexivity).
  destruct (estimate_lv_selects_count_and_refits Toy.fit Toy.predict Toy.KFold_split
              Toy.score Toy.score Toy.score Toy.score Toy.score Toy.score
              toy_x toy_y 5 2 false "auc" 0.1 0.15 false Toy.w_new (snd toy_cv5)
              "auc" env Hcv) as [Hreturns _].
  destruct (Hreturns 3%nat Toy.observed ([Toy.zeros Toy.block], [0; 0; 0; 0]))
    as (w' & Hrun & Hself & _ & Hout); [vm_compute; reflexivity..|].
  exists w'. split; [exact Hrun|]. split.
  - rewrite Hself. vm_compute. reflexivity.
  - rewrite Hout. vm_compute. reflexivity.
Defined.

(** The same toy engine with a testing q2 that falls with the component
    count: five candidate counts, two folds, continuous outcome. *)
Abbreviation toy_falling_lv :=
  (estimate_lv Toy.fit Toy.predict Toy.KFold_split Toy.falling_score Toy.score
     Toy.score Toy.score Toy.score Toy.score).
Abbreviation toy_falling_cv :=
  (cross_validate Toy.fit Toy.predict Toy.KFold_split Toy.falling_score Toy.score
     Toy.score Toy.score Toy.score Toy.score toy_x toy_y 5 2 true "q2" Toy.w_new).

(** C3 as stated fails on a curve with a plateau and no bend.  A testing
    q2 that falls by 0.008 per component from -0.1 is flat over the counts
    1 to 3 at the default plateau threshold 0.01, so a plateau is found;
    but each difference divided by the first score is 0.08, not below the
    default increase threshold 0.05, and [estimate_lv] raises ValueError
    at the bend.  The plateau start is not selected: nothing is printed,
    the ten fits of the folds are followed by no refit on the full data,
    and the model is left with the largest candidate count. *)
Lemma estimate_lv_raises_despite_plateau :
  exists env,
    toy_falling_cv = (Ok ("q2"%string, env), snd toy_falling_cv) /\
    Forall2 Qeq (select_metric "q2" env) [-0.1; -0.108; -0.116; -0.124; -0.132] /\
    _find_plateau (select_metric "q2" env) 0.01 3 = Some (1%nat, 3%nat) /\
    bend_of (select_metric "q2" env) 0.05 = Raise ValueError /\
    toy_falling_lv toy_x toy_y 5 2 true "q2" 0.01 0.05 false Toy.w_new
    = (Raise ValueError, snd toy_falling_cv) /\
    stdout (snd toy_falling_cv) = [] /\
    n_components (self_ (snd toy_falling_cv)) = 5%nat /\
    length (fit_log (snd toy_falling_cv)) = 10%nat /\
    Forall (fun c => call_refs c = None) (fit_log (snd toy_falling_cv)).
Proof.
  exists (match fst toy_falling_cv with Ok (_, env) => env | Raise _ => ∅ end).
  split; [vm_compute; reflexivity|].
  split; [vm_compute; repeat (constructor; [reflexivity|]); constructor|].
  split; [vm_compute; reflexivity|].
  split; [vm_compute; reflexivity|].
  split; [vm_compute; reflexivity|].
  split; [vm_compute; reflexivity|].
  split; [vm_compute; reflexivity|].
  split; [vm_compute; reflexivity|].
  vm_compute. repeat constructor.
Qed.

(** The spelling 'AUC' of the docstring is refused for a categorical
    outcome. *)
Lemma estimate_lv_refuses_categorical_metric_witness :
  (exists w',
     toy_estimate_lv toy_x toy_y 5 2 false "AUC" 0.01 0.05 false Toy.w_new
     = (Raise ValueError, w') /\
     self_ w' = self_ Toy.w_new /\ fit_log w' = fit_log Toy.w_new /\
     stdout w' = stdout Toy.w_new) /\
  validate_metric true "AUC" = Ok "q2"%string.
Proof.
  apply estimate_lv_refuses_categorical_metric; [discriminate|reflexivity].
Defined.

(** C7 as stated fails: for a continuous outcome the metric 'auc' is not
    in the allowed set, yet [estimate_lv] raises nothing, runs all the
    folds (eleven fits: two folds for each of five counts, and the refit)
    and returns. *)
Lemma estimate_lv_accepts_any_metric_for_continuous_outcome :
  str_in "auc" (allowed_metrics true) = false /\
  fst (toy_estimate_lv toy_x toy_y 5 2 true "auc" 0.1 0.15 false Toy.w_new) = Ok None /\
  length (fit_log (snd (toy_estimate_lv toy_x toy_y 5 2 true "auc" 0.1 0.15 false
                          Toy.w_new))) = 11%nat.
Proof. repeat split; vm_compute; reflexivity. Qed.

(** Two trials on the fitted model: the p-values are 0/2 and 2/2. *)
Lemma permtest_p_values_are_null_fractions_witness :
  exists f_obs nulls,
    attrs (self_ (Toy.w_fitted true)) = Some f_obs /\
    null_trials Toy.fit Toy.permutation Toy.sqrt toy_x
      (default [] (arrays (Toy.w_fitted true) !! toy_y)) (Toy.w_fitted true)
      (snd toy_perm2) nulls /\
    length nulls = 2%nat /\
    (length (hd [] nulls) = length (vip_of Toy.sqrt f_obs) ->
     [0 # 2; 2 # 2] = spec_p_values (vip_of Toy.sqrt f_obs) nulls 2 /\
     forall feat, (feat < length (vip_of Toy.sqrt f_obs))%nat ->
       (forall v, In v nulls ->
          np_greater (nth feat (vip_of Toy.sqrt f_obs) NaN) (nth feat v NaN) = true) ->
       nth feat [0 # 2; 2 # 2] 0 == 0).
Proof.
  apply (permtest_p_values_are_null_fractions Toy.fit Toy.permutation Toy.sqrt
           toy_x toy_y 2 false (Toy.w_fitted true) (snd toy_perm2) [0 # 2; 2 # 2] None).
  vm_compute. reflexivity.
Defined.

(** The p-values 0/2 and 2/2 of the same run lie between 0 and 1. *)
Lemma permtest_p_values_in_unit_interval_witness :
  Forall (fun p => 0 <= p <= 1 /\
                   exists c : nat, (c <= 2)%nat /\
                     p = inject_Z (Z.of_nat c) / inject_Z (Z.of_nat 2))
         [0 # 2; 2 # 2].
Proof.
  apply (permtest_p_values_in_unit_interval Toy.fit Toy.permutation Toy.sqrt
           toy_x toy_y 2 false (Toy.w_fitted true) (snd toy_perm2) [0 # 2; 2 # 2] None).
  vm_compute. reflexivity.
Defined.

(** C5 as stated fails: with two trials the p-value of the first feature,
    whose observed score 8 (64/8) is above both null scores 0, is 0, which
    is below 1/2. *)
Lemma permtest_p_value_below_one_over_n :
  fst toy_perm2 = Ok ([0 # 2; 2 # 2], None) /\
  vip_of Toy.sqrt Toy.observed = [Finite (64 # 8); Finite (16 # 8)] /\
  empirical_p_values [Finite 8; Finite 2]
    [[Finite 0; Finite 2]; [Finite 0; Finite 2]] 2
  = Ok ([0 # 2; 2 # 2], [[Finite 0; Finite 0]; [Finite 2; Finite 2]]) /\
  ~ Forall (fun p => 1 / inject_Z (Z.of_nat 2) <= p <= 1) [0 # 2; 2 # 2].
Proof.
  split; [vm_compute; reflexivity|]. split; [vm_compute; reflexivity|].
  split; [vm_compute; reflexivity|].
  intros H. inversion H as [|p ps [Hlow _] _]. vm_compute in Hlow.
  apply Hlow. reflexivity.
Qed.

(** After the two trials the model holds the fit of the second one. *)
Lemma permtest_leaves_last_null_model_witness :
  exists c fitted residue,
    last (fit_log (snd toy_perm2)) = Some c /\
    call_refs c = Some (blocks_of toy_x) /\
    call_n c = n_components (self_ (Toy.w_fitted true)) /\
    call_y c = y_perm_at Toy.permutation (rng (Toy.w_fitted true))
                 (default [] (arrays (Toy.w_fitted true) !! toy_y)) (2 - 1) /\
    Toy.fit (call_n c) (call_X c) (call_y c) = Some (fitted, residue) /\
    self_ (snd toy_perm2) =
      {| n_components := n_components (self_ (Toy.w_fitted true));
         copy := copy (self_ (Toy.w_fitted true)); attrs := Some fitted |}.
Proof.
  apply (permtest_leaves_last_null_model Toy.fit Toy.permutation Toy.sqrt
           toy_x toy_y 2 false (Toy.w_fitted true) (snd toy_perm2) ([0 # 2; 2 # 2], None)).
  - vm_compute. reflexivity.
  - lia.
Defined.

(** C6. With a model that deflates in place ([copy] false), one trial of
    [mb_vip_permtest] returns and the caller's block is overwritten: the
    deep copy made on entry (the new block number 1) is never given to the
    engine, which is called on the caller's own block number 0. *)
Theorem permtest_overwrites_caller_blocks :
  exists r w',
    toy_permtest toy_x toy_y 1 false (Toy.w_fitted false) = (Ok r, w') /\
    frames (Toy.w_fitted false) !! 0%nat = Some Toy.block /\
    frames w' !! 0%nat = Some (Toy.zeros Toy.block) /\
    frames w' !! 1%nat = Some Toy.block /\
    call_refs <$> last (fit_log w') = Some (Some [0%nat]) /\
    arrays w' = arrays (Toy.w_fitted false).
Proof.
  eexists _, _. split; [vm_compute; reflexivity|].
  repeat split; vm_compute; reflexivity.
Qed.

(** The attributes on return differ from the observed ones in the run of
    two trials. *)
Example toy_permtest_replaces_observed_model :
  attrs (self_ (Toy.w_fitted true)) = Some Toy.observed /\
  attrs (self_ (snd toy_perm2)) <> Some Toy.observed.
Proof. split; [reflexivity|]. vm_compute. discriminate. Qed.

(** ** Further runs *)

(** The plateau found with the threshold 0.01 at the counts 3 to 5 is found
    at the counts 2 to 4 with the threshold 0.1. *)
Lemma find_plateau_monotone_in_threshold_witness :
  exists s' e',
    _find_plateau [0.5; 0.6; 0.695; 0.7; 0.705; 0.9] 0.1 3 = Some (s', e') /\
    (s' <= 3)%nat.
Proof.
  apply (find_plateau_monotone_in_threshold
           [0.5; 0.6; 0.695; 0.7; 0.705; 0.9] 0.01 0.1 3 3 5).
  - vm_compute. discriminate.
  - vm_compute. reflexivity.
Defined.

(** A curve that falls from 0.8 to 0.7 has its bend at 1. *)
Lemma bend_is_one_when_first_step_does_not_rise_witness :
  bend_of (0.8 :: 0.7 :: [0.9; 0.95]) 0.05 = Ok 1%nat.
Proof.
  apply bend_is_one_when_first_step_does_not_rise; vm_compute; congruence.
Defined.

(** A q2 curve that starts at -0.2 and rises has its bend at 1. *)
Lemma bend_is_one_when_first_score_negative_witness :
  bend_of (-0.2 :: 0.1 :: [0.5; 0.6]) 0.05 = Ok 1%nat.
Proof.
  apply bend_is_one_when_first_score_negative; vm_compute; congruence.
Defined.

(** In the run of two trials the second feature, observed at 2 and at 2
    in both null models, has the p-value 2/2. *)
Lemma permtest_p_value_one_when_never_above_witness :
  exists f_obs nulls,
    attrs (self_ (Toy.w_fitted true)) = Some f_obs /\
    null_trials Toy.fit Toy.permutation Toy.sqrt toy_x
      (default [] (arrays (Toy.w_fitted true) !! toy_y)) (Toy.w_fitted true)
      (snd toy_perm2) nulls /\
    (length (hd [] nulls) = length (vip_of Toy.sqrt f_obs) ->
     forall feat, (feat < length (vip_of Toy.sqrt f_obs))%nat ->
       (forall v, In v nulls ->
          np_greater_equal (nth feat v NaN) (nth feat (vip_of Toy.sqrt f_obs) NaN)
          = true) ->
       nth feat [0 # 2; 2 # 2] 0 == 1).
Proof.
  apply (permtest_p_value_one_when_never_above Toy.fit Toy.permutation Toy.sqrt
           toy_x toy_y 2 false (Toy.w_fitted true) (snd toy_perm2) [0 # 2; 2 # 2] None).
  vm_compute. reflexivity.
Defined.

(** Two trials on the model with zero super-scores. *)
Abbreviation toy_perm_degenerate :=
  (toy_permtest toy_x toy_y 2 false Toy.w_degenerate).

(** Both observed scores of the degenerate model are NaN and both p-values
    are 0/2. *)
Lemma permtest_p_value_zero_for_nan_score_witness :
  vip_of Toy.sqrt Toy.degenerate = [NaN; NaN] /\
  exists f_obs nulls,
    attrs (self_ Toy.w_degenerate) = Some f_obs /\
    null_trials Toy.fit Toy.permutation Toy.sqrt toy_x
      (default [] (arrays Toy.w_degenerate !! toy_y)) Toy.w_degenerate
      (snd toy_perm_degenerate) nulls /\
    (length (hd [] nulls) = length (vip_of Toy.sqrt f_obs) ->
     forall feat, (feat < length (vip_of Toy.sqrt f_obs))%nat ->
       nth feat (vip_of Toy.sqrt f_obs) NaN = NaN ->
       nth feat [0 # 2; 0 # 2] 0 == 0).
Proof.
  split; [vm_compute; reflexivity|].
  apply (permtest_p_value_zero_for_nan_score Toy.fit Toy.permutation Toy.sqrt
           toy_x toy_y 2 false Toy.w_degenerate (snd toy_perm_degenerate)
           [0 # 2; 0 # 2] None).
  vm_compute. reflexivity.
Defined.

(** Five candidate counts with the table asked for. *)
Abbreviation toy_lv5_table :=
  (toy_estimate_lv toy_x toy_y 5 2 false "auc" 0.1 0.15 true Toy.w_new).
(** Three candidate counts: the bend is at 2 for the increase threshold
    0.2. *)
Abbreviation toy_lv3 :=
  (toy_estimate_lv toy_x toy_y 3 2 false "auc" 0.01 0.2 false Toy.w_new).

(** The table of the run on five counts has five rows in each of its
    eleven columns. *)
Lemma estimate_lv_table_has_one_row_per_count_witness :
  exists table,
    match fst toy_lv5_table with Ok r => r | Raise _ => None end = Some table /\
    hd_error table = Some ("Number of Components"%string, component_column 5) /\
    Forall (fun column => length (snd column) = 5%nat) table.
Proof.
  apply (estimate_lv_table_has_one_row_per_count Toy.fit Toy.predict Toy.KFold_split
           Toy.score Toy.score Toy.score Toy.score Toy.score Toy.score
           toy_x toy_y 5 2 false "auc" 0.1 0.15 true Toy.w_new (snd toy_lv5_table)).
  vm_compute. reflexivity.
Defined.

(** The run on five counts leaves the count 2 in the model. *)
Lemma estimate_lv_never_selects_largest_count_witness :
  (2 <= 5)%nat /\ (1 <= n_components (self_ (snd toy_lv5_table)) < 5)%nat /\
  is_Some (attrs (self_ (snd toy_lv5_table))).
Proof.
  apply (estimate_lv_never_selects_largest_count Toy.fit Toy.predict Toy.KFold_split
           Toy.score Toy.score Toy.score Toy.score Toy.score Toy.score
           toy_x toy_y 5 2 false "auc" 0.1 0.15 true Toy.w_new (snd toy_lv5_table)
           (match fst toy_lv5_table with Ok r => r | Raise _ => None end)).
  vm_compute. reflexivity.
Defined.

(** The run on three counts prints the advice and leaves the bend 2. *)
Lemma estimate_lv_advises_with_at_most_three_counts_witness :
  exists metric' bend,
    validate_metric false "auc" = Ok metric' /\
    n_components (self_ (snd toy_lv3)) = bend /\
    stdout (snd toy_lv3) = stdout Toy.w_new ++
      [MsgBend metric' (0.2 * 100) bend; MsgNoPlateau; MsgRefitted bend].
Proof.
  apply (estimate_lv_advises_with_at_most_three_counts Toy.fit Toy.predict
           Toy.KFold_split Toy.score Toy.score Toy.score Toy.score Toy.score Toy.score
           toy_x toy_y 3 2 false "auc" 0.01 0.2 false Toy.w_new (snd toy_lv3) None).
  - vm_compute. reflexivity.
  - lia.
Defined.

(** The run on five counts: two folds for each count, then the refit. *)
Lemma estimate_lv_history_of_fits_witness :
  exists splits,
    Toy.KFold_split 2 (length (default [] (arrays Toy.w_new !! toy_y))) = Ok splits /\
    fit_log (snd toy_lv5_table) =
      fit_log Toy.w_new ++
      cv_calls (frames_of toy_x Toy.w_new) (default [] (arrays Toy.w_new !! toy_y))
        splits 5 ++
      [{| call_n := n_components (self_ (snd toy_lv5_table));
          call_refs := Some (blocks_of toy_x);
          call_X := frames_of toy_x Toy.w_new;
          call_y := default [] (arrays Toy.w_new !! toy_y) |}] /\
    length (fit_log (snd toy_lv5_table)) =
      (length (fit_log Toy.w_new) + 5 * length splits + 1)%nat.
Proof.
  apply (estimate_lv_history_of_fits Toy.fit Toy.predict Toy.KFold_split
           Toy.score Toy.score Toy.score Toy.score Toy.score Toy.score
           toy_x toy_y 5 2 false "auc" 0.1 0.15 true Toy.w_new (snd toy_lv5_table)
           (match fst toy_lv5_table with Ok r => r | Raise _ => None end)).
  vm_compute. reflexivity.
Defined.

(** The same run keeps the block and the response of the caller. *)
Lemma estimate_lv_keeps_data_when_copying_witness :
  arrays (snd toy_lv5_table) = arrays Toy.w_new /\
  frames Toy.w_new ⊆ frames (snd toy_lv5_table) /\
  frames_of toy_x (snd toy_lv5_table) = frames_of toy_x Toy.w_new /\
  rng (snd toy_lv5_table) = rng Toy.w_new /\
  copy (self_ (snd toy_lv5_table)) = true.
Proof.
  apply (estimate_lv_keeps_data_when_copying Toy.fit Toy.predict Toy.KFold_split
           Toy.score Toy.score Toy.score Toy.score Toy.score Toy.score
           toy_x toy_y 5 2 false "auc" 0.1 0.15 true Toy.w_new (snd toy_lv5_table)
           (match fst toy_lv5_table with Ok r => r | Raise _ => None end)).
  - vm_compute. reflexivity.
  - reflexivity.
Defined.

(** The run on three counts that raises at the bend leaves the count 3
    and the fit on the rows 0 and 1, the training rows of the second
    fold. *)
Lemma estimate_lv_failure_leaves_last_fold_model_witness :
  snd (toy_estimate_lv toy_x toy_y 3 2 false "auc" 0.01 0.05 false Toy.w_new)
  = snd toy_cv3 /\
  last (fit_log (snd (toy_estimate_lv toy_x toy_y 3 2 false "auc" 0.01 0.05 false
                        Toy.w_new)))
  = Some (fold_call (frames_of toy_x Toy.w_new)
            (default [] (arrays Toy.w_new !! toy_y)) 3 ([0; 1]%nat, [2; 3]%nat)) /\
  n_components (self_ (snd (toy_estimate_lv toy_x toy_y 3 2 false "auc" 0.01 0.05
                              false Toy.w_new))) = 3%nat /\
  is_Some (attrs (self_ (snd (toy_estimate_lv toy_x toy_y 3 2 false "auc" 0.01 0.05
                                false Toy.w_new)))) /\
  attrs (self_ (snd (toy_estimate_lv toy_x toy_y 3 2 false "auc" 0.01 0.05 false
                       Toy.w_new)))
  = fst <$> Toy.fit 3
      (call_X (fold_call (frames_of toy_x Toy.w_new)
                 (default [] (arrays Toy.w_new !! toy_y)) 3 ([0; 1]%nat, [2; 3]%nat)))
      (call_y (fold_call (frames_of toy_x Toy.w_new)
                 (default [] (arrays Toy.w_new !! toy_y)) 3 ([0; 1]%nat, [2; 3]%nat))).
Proof.
  pose (env := match fst toy_cv3 with Ok (_, env) => env | Raise _ => ∅ end).
  apply (estimate_lv_failure_leaves_last_fold_model Toy.fit Toy.predict
           Toy.KFold_split Toy.score Toy.score Toy.score Toy.score Toy.score Toy.score
           toy_x toy_y 3 2 false "auc" 0.01 0.05 false Toy.w_new (snd toy_cv3)
           "auc" env [([2; 3]%nat, [0; 1]%nat); ([0; 1]%nat, [2; 3]%nat)]).
  - vm_compute. reflexivity.
  - intros k Hk.
    assert (Hlen : length (select_metric "auc" env) = 3%nat) by (vm_compute; reflexivity).
    rewrite Hlen in Hk.
    destruct k as [|[|k]]; [vm_compute; reflexivity..|lia].
  - lia.
  - vm_compute. reflexivity.
  - reflexivity.
Defined.

(** The two trials on the fitted model advance the generator twice. *)
Lemma permtest_side_effects_witness :
  stdout (snd toy_perm2) = stdout (Toy.w_fitted true) /\
  figure (snd toy_perm2) = figure (Toy.w_fitted true) /\
  arrays (snd toy_perm2) = arrays (Toy.w_fitted true) /\
  rng (snd toy_perm2) =
    rng_before Toy.permutation (rng (Toy.w_fitted true))
      (default [] (arrays (Toy.w_fitted true) !! toy_y)) 2 /\
  copy (self_ (snd toy_perm2)) = copy (self_ (Toy.w_fitted true)) /\
  (copy (self_ (Toy.w_fitted true)) = true ->
   frames (Toy.w_fitted true) ⊆ frames (snd toy_perm2)).
Proof.
  apply (permtest_side_effects Toy.fit Toy.permutation Toy.sqrt
           toy_x toy_y 2 false (Toy.w_fitted true) (snd toy_perm2)
           ([0 # 2; 2 # 2], None)).
  vm_compute. reflexivity.
Defined.

(** No trial on the fitted model. *)
Lemma permtest_without_permutation_raises_witness :
  exists w',
    toy_permtest toy_x toy_y 0 true (Toy.w_fitted true) = (Raise ValueError, w') /\
    self_ w' = self_ (Toy.w_fitted true) /\
    fit_log w' = fit_log (Toy.w_fitted true) /\
    rng w' = rng (Toy.w_fitted true) /\ arrays w' = arrays (Toy.w_fitted true).
Proof.
  apply permtest_without_permutation_raises.
  - eexists; reflexivity.
  - discriminate.
  - vm_compute. discriminate.
Defined.

(** Two trials with the null scores asked for. *)
Abbreviation toy_perm2_scores :=
  (toy_permtest toy_x toy_y 2 true (Toy.w_fitted true)).

Lemma permtest_returned_null_scores_witness :
  exists nulls,
    null_trials Toy.fit Toy.permutation Toy.sqrt toy_x
      (default [] (arrays (Toy.w_fitted true) !! toy_y)) (Toy.w_fitted true)
      (snd toy_perm2_scores) nulls /\
    length nulls = 2%nat /\
    Forall (fun v => length v = length (hd [] nulls)) nulls /\
    Some [[Finite (0 # 8); Finite (0 # 8)]; [Finite (16 # 8); Finite (16 # 8)]] =
      Some (map (fun feat => map (fun v => nth feat v NaN) nulls)
              (seq 0 (length (hd [] nulls)))).
Proof.
  apply (permtest_returned_null_scores Toy.fit Toy.permutation Toy.sqrt
           toy_x toy_y 2 true (Toy.w_fitted true) (snd toy_perm2_scores)
           [0 # 2; 2 # 2]).
  vm_compute. reflexivity.
Defined.

Lemma unfitted_model_raises_before_any_effect_witness :
  mb_vip Toy.sqrt true Toy.w_new = (Raise NotFittedError, Toy.w_new) /\
  toy_permtest toy_x toy_y 2%nat true Toy.w_new = (Raise NotFittedError, Toy.w_new).
Proof. apply unfitted_model_raises_before_any_effect. reflexivity. Defined.

Lemma empty_block_list_raises_index_error_witness :
  toy_permtest (XList []) toy_y 2%nat true (Toy.w_fitted true) =
    (Raise IndexError, Toy.w_fitted true).
Proof.
  apply (proj2 (empty_block_list_raises_index_error Toy.fit Toy.predict
                  Toy.KFold_split Toy.score Toy.score Toy.score Toy.score Toy.score
                  Toy.score Toy.permutation Toy.sqrt toy_y 2%nat 2%nat false
                  "auc"%string 0 0 false true (Toy.w_fitted true))).
  vm_compute. eexists. reflexivity.
Defined.
